(** * Warehouse simulation: the dual-lane ring store, its gate and its
      lifecycle, embedded shallowly and checked against the specification.

    The program is new.c; the second source file is its console variant, with
    the same ring store.

    Conventions of the embedding.
    - A C [int] is a [Z].  Signed overflow is undefined in C; the cursors stay
      below [BUFFER_SIZE] and the counters grow by one per loop iteration, so
      the arithmetic of the model stays inside [int] on the states of a run.
    - C's [%] truncates towards zero: it is [Z.rem], not [Z.modulo].
    - The two [int\[BUFFER_SIZE\]] arrays are lists read and written through a
      [Z] index.  An access outside the array is undefined in C; the model
      reads [0] and ignores the write, and [gate_inv_run] below shows, through
      [store_wf], that a run from the initial state never does it.
    - [log_error] prints a line; a function that may call it returns the line
      it printed, if any, next to its result.
    - The screen ([refresh_screen], [last_action]) and the log file
      ([log_event_file]) are written and never read back by the program:
      they are left out of the state, except for the stock classification
      that [refresh_screen] and [stock_alert] compute. *)

From stdpp Require Import base numbers option list strings.
From Stdlib Require Import ZArith Lia Ascii.


Local Open Scope Z_scope.

(** ** Constants *)

Definition BUFFER_SIZE : Z := 10.
Definition MAX_PRIORITY : Z := 2.
Definition LOW_STOCK_THRESHOLD : Z := 1.
Definition HIGH_STOCK_THRESHOLD : Z := 9.

(** ** C arrays indexed by an [int] *)

Definition in_bounds (a : list Z) (i : Z) : bool :=
  (0 <=? i) && (i <? Z.of_nat (length a)).

(** [a\[i\]] *)
Definition rd (a : list Z) (i : Z) : Z :=
  if in_bounds a i then a !!! Z.to_nat i else 0.

(** [a\[i\] = v] *)
Definition wr (a : list Z) (i : Z) (v : Z) : list Z :=
  if in_bounds a i then <[Z.to_nat i := v]> a else a.

(** ** The ring store: the globals of the two lanes *)

Record store := mkStore {
  buffer : list Z;          (* int buffer[BUFFER_SIZE] *)
  in_ : Z;                  (* int in  *)
  out : Z;                  (* int out *)
  urgent_buffer : list Z;   (* int urgent_buffer[BUFFER_SIZE] *)
  urgent_in : Z;
  urgent_out : Z;
  urgent_count : Z
}.

(** The lines [log_error] can print. *)
Inductive error := Buffer_overflow | Buffer_underflow.

(** Static storage is zero-initialised; the cursors and the count are
    initialised to [0] explicitly. *)
Definition init_store : store :=
  mkStore (replicate 10 0) 0 0 (replicate 10 0) 0 0 0.

(** [void add_product(int item, int priority)] *)
Definition add_product (item priority : Z) (s : store) : option error * store :=
  if Z.rem (in_ s + 1) BUFFER_SIZE =? out s then
    (Some Buffer_overflow, s)
  else if negb (priority =? 0) then
    (None,
     mkStore (buffer s) (in_ s) (out s)
             (wr (urgent_buffer s) (urgent_in s) item)
             (Z.rem (urgent_in s + 1) BUFFER_SIZE)
             (urgent_out s)
             (urgent_count s + 1))
  else
    (None,
     mkStore (wr (buffer s) (in_ s) item)
             (Z.rem (in_ s + 1) BUFFER_SIZE)
             (out s)
             (urgent_buffer s) (urgent_in s) (urgent_out s) (urgent_count s)).

(** [int extract_product()]: the returned [int], the line logged, the store. *)
Definition extract_product (s : store) : Z * option error * store :=
  if (in_ s =? out s) && (urgent_count s =? 0) then
    (-1, Some Buffer_underflow, s)
  else if 0 <? urgent_count s then
    (rd (urgent_buffer s) (urgent_out s), None,
     mkStore (buffer s) (in_ s) (out s)
             (urgent_buffer s) (urgent_in s)
             (Z.rem (urgent_out s + 1) BUFFER_SIZE)
             (urgent_count s - 1))
  else
    (rd (buffer s) (out s), None,
     mkStore (buffer s) (in_ s)
             (Z.rem (out s + 1) BUFFER_SIZE)
             (urgent_buffer s) (urgent_in s) (urgent_out s) (urgent_count s)).

(** ** Occupancy and the stock classification *)

(** [(in - out + BUFFER_SIZE) % BUFFER_SIZE], as [refresh_screen],
    [print_final_statistics] and [stock_alert] compute it. *)
Definition normal_count (s : store) : Z :=
  Z.rem (in_ s - out s + BUFFER_SIZE) BUFFER_SIZE.

Inductive stock_level := LOW | NORMAL | HIGH.

(** The [if]/[else if] of [stock_alert] and [refresh_screen] on
    [total_stock = normal_count + urgent_count]; [NORMAL] is the case in which
    neither alert is printed. *)
Definition classify (normal_cnt urgent_cnt : Z) : stock_level :=
  let total_stock := normal_cnt + urgent_cnt in
  if total_stock <=? LOW_STOCK_THRESHOLD then LOW
  else if HIGH_STOCK_THRESHOLD <=? total_stock then HIGH
  else NORMAL.

Definition stock_alert (s : store) : stock_level :=
  classify (normal_count s) (urgent_count s).

(** ** The shared globals of new.c *)

Record world := mkWorld {
  lanes : store;
  empty : Z;                 (* value of [sem_t empty] *)
  full : Z;                  (* value of [sem_t full] *)
  mutex : bool;              (* [true] while [pthread_mutex_t mutex] is held *)
  simulation_running : Z;    (* volatile sig_atomic_t *)
  simulation_count : Z;
  total_produced : Z;
  total_consumed : Z;
  NUM_PRODUCERS : Z;
  NUM_CONSUMERS : Z;
  errors : list error        (* lines printed by [log_error], latest first *)
}.

Definition set_lanes (s : store) (w : world) : world :=
  mkWorld s (empty w) (full w) (mutex w) (simulation_running w)
          (simulation_count w) (total_produced w) (total_consumed w)
          (NUM_PRODUCERS w) (NUM_CONSUMERS w) (errors w).

Definition set_empty (v : Z) (w : world) : world :=
  mkWorld (lanes w) v (full w) (mutex w) (simulation_running w)
          (simulation_count w) (total_produced w) (total_consumed w)
          (NUM_PRODUCERS w) (NUM_CONSUMERS w) (errors w).

Definition set_full (v : Z) (w : world) : world :=
  mkWorld (lanes w) (empty w) v (mutex w) (simulation_running w)
          (simulation_count w) (total_produced w) (total_consumed w)
          (NUM_PRODUCERS w) (NUM_CONSUMERS w) (errors w).

Definition set_mutex (b : bool) (w : world) : world :=
  mkWorld (lanes w) (empty w) (full w) b (simulation_running w)
          (simulation_count w) (total_produced w) (total_consumed w)
          (NUM_PRODUCERS w) (NUM_CONSUMERS w) (errors w).

Definition set_simulation_running (v : Z) (w : world) : world :=
  mkWorld (lanes w) (empty w) (full w) (mutex w) v
          (simulation_count w) (total_produced w) (total_consumed w)
          (NUM_PRODUCERS w) (NUM_CONSUMERS w) (errors w).

Definition set_simulation_count (v : Z) (w : world) : world :=
  mkWorld (lanes w) (empty w) (full w) (mutex w) (simulation_running w)
          v (total_produced w) (total_consumed w)
          (NUM_PRODUCERS w) (NUM_CONSUMERS w) (errors w).

(** [log_error(msg)], when a store operation asked for it. *)
Definition log_error (e : option error) (w : world) : world :=
  match e with
  | None => w
  | Some msg =>
      mkWorld (lanes w) (empty w) (full w) (mutex w) (simulation_running w)
              (simulation_count w) (total_produced w) (total_consumed w)
              (NUM_PRODUCERS w) (NUM_CONSUMERS w) (msg :: errors w)
  end.

(** [void update_statistics(int produced, int consumed)] *)
Definition update_statistics (produced consumed : Z) (w : world) : world :=
  mkWorld (lanes w) (empty w) (full w) (mutex w) (simulation_running w)
          (simulation_count w)
          (total_produced w + produced) (total_consumed w + consumed)
          (NUM_PRODUCERS w) (NUM_CONSUMERS w) (errors w).

(** *** The primitives of pthread and of POSIX semaphores

    A call that would block has no successor state: [None]. *)

Definition pthread_mutex_lock (w : world) : option world :=
  if mutex w then None else Some (set_mutex true w).

Definition pthread_mutex_unlock (w : world) : world := set_mutex false w.

Definition sem_wait_empty (w : world) : option world :=
  if 0 <? empty w then Some (set_empty (empty w - 1) w) else None.

Definition sem_wait_full (w : world) : option world :=
  if 0 <? full w then Some (set_full (full w - 1) w) else None.

Definition sem_post_empty (w : world) : world := set_empty (empty w + 1) w.
Definition sem_post_full (w : world) : world := set_full (full w + 1) w.

(** [for (int i = 0; i < n; i++) body;] *)
Definition for_upto (n : Z) (body : world -> world) (w : world) : world :=
  Nat.iter (Z.to_nat n) body w.

(** ** The worker threads

    The mutex makes each locked region atomic, and a thread can be suspended
    at each [sem_wait].  A thread is therefore cut at its semaphore calls,
    and its program counter says which piece comes next. *)

Inductive supplier_pc :=
| S_check                          (* top of [while (1)] *)
| S_wait (item priority : Z)       (* before [sem_wait(&empty)] *)
| S_crit (item priority : Z)       (* holds a free slot, before the lock *)
| S_post                           (* before [sem_post(&full)] *)
| S_exit.                          (* left the loop *)

Inductive retailer_pc :=
| R_check                          (* top of [while (1)] *)
| R_wait                           (* before [sem_wait(&full)] *)
| R_crit                           (* holds a filled slot, before the lock *)
| R_repost                         (* before [sem_post(&full); continue] *)
| R_release                        (* before [sem_post(&empty)] *)
| R_exit.

(** The locked region of [supplier]: [add_product], then, whatever it did,
    [update_statistics(1, 0)]. *)
Definition supplier_critical (item priority : Z) (w : world) : option world :=
  w1 ← pthread_mutex_lock w;
  let '(e, s') := add_product item priority (lanes w1) in
  let w2 := log_error e (set_lanes s' w1) in
  let w3 := update_statistics 1 0 w2 in
  Some (pthread_mutex_unlock w3).

(** The locked region of [retailer] after [sem_wait(&full)]. *)
Definition retailer_critical (w : world) : option (retailer_pc * world) :=
  w1 ← pthread_mutex_lock w;
  if (in_ (lanes w1) =? out (lanes w1)) && (urgent_count (lanes w1) =? 0) then
    Some (R_repost, pthread_mutex_unlock w1)
  else
    let '(item, e, s') := extract_product (lanes w1) in
    let w2 := log_error e (set_lanes s' w1) in
    if item =? -1 then
      Some (R_repost, pthread_mutex_unlock w2)
    else
      Some (R_release, pthread_mutex_unlock (update_statistics 0 1 w2)).

(** One piece of [supplier].  [r1] and [r2] are the two values [rand()]
    returns when the piece draws an item and a priority. *)
Definition supplier_step (pc : supplier_pc) (r1 r2 : Z) (w : world)
  : option (supplier_pc * world) :=
  match pc with
  | S_check =>
      w1 ← pthread_mutex_lock w;
      if simulation_count w1 <=? 0 then
        Some (S_exit, pthread_mutex_unlock w1)
      else
        Some (S_wait (Z.rem r1 100) (Z.rem r2 MAX_PRIORITY),
              pthread_mutex_unlock w1)
  | S_wait item priority =>
      w1 ← sem_wait_empty w; Some (S_crit item priority, w1)
  | S_crit item priority =>
      w1 ← supplier_critical item priority w; Some (S_post, w1)
  | S_post => Some (S_check, sem_post_full w)
  | S_exit => None
  end.

(** One piece of [retailer]. *)
Definition retailer_step (pc : retailer_pc) (w : world)
  : option (retailer_pc * world) :=
  match pc with
  | R_check =>
      w1 ← pthread_mutex_lock w;
      if simulation_count w1 <=? 0 then
        Some (R_exit, pthread_mutex_unlock w1)
      else
        Some (R_wait,
              pthread_mutex_unlock
                (set_simulation_count (simulation_count w1 - 1) w1))
  | R_wait => w1 ← sem_wait_full w; Some (R_crit, w1)
  | R_crit => retailer_critical w
  | R_repost => Some (R_check, sem_post_full w)
  | R_release => Some (R_check, sem_post_empty w)
  | R_exit => None
  end.

(** ** The running program: the globals and one program counter per thread *)

Record system := mkSystem {
  globals : world;
  suppliers : list supplier_pc;
  retailers : list retailer_pc
}.

(** What the scheduler does next: run the next piece of a thread. *)
Inductive event :=
| Supplier (i : nat) (r1 r2 : Z)
| Retailer (j : nat).

Definition step (ev : event) (sys : system) : option system :=
  match ev with
  | Supplier i r1 r2 =>
      pc ← suppliers sys !! i;
      '(pc', w') ← supplier_step pc r1 r2 (globals sys);
      Some (mkSystem w' (<[i := pc']> (suppliers sys)) (retailers sys))
  | Retailer j =>
      pc ← retailers sys !! j;
      '(pc', w') ← retailer_step pc (globals sys);
      Some (mkSystem w' (suppliers sys) (<[j := pc']> (retailers sys)))
  end.

Fixpoint run (evs : list event) (sys : system) : option system :=
  match evs with
  | [] => Some sys
  | ev :: evs' => sys' ← step ev sys; run evs' sys'
  end.

(** [main] after the configuration was read: [sem_init(&empty, 0,
    BUFFER_SIZE)], [sem_init(&full, 0, 0)], the mutex, and one thread per
    supplier and per retailer, each at the top of its loop. *)
Definition init_world (np nc count : Z) : world :=
  mkWorld init_store BUFFER_SIZE 0 false 1 count 0 0 np nc [].

Definition init_system (np nc count : Z) : system :=
  mkSystem (init_world np nc count)
           (replicate (Z.to_nat np) S_check)
           (replicate (Z.to_nat nc) R_check).

(** ** Shutdown: [void sigint_handler(int sig)]

    The state in which the handler reaches [exit(0)]; [None] when the
    handler waits for a mutex that is held. *)
Definition sigint_handler (w : world) : option world :=
  let w0 := set_simulation_running 0 w in
  w1 ← pthread_mutex_lock w0;
  let w2 := set_simulation_count 0 w1 in
  let w3 := pthread_mutex_unlock w2 in
  let w4 := for_upto (NUM_PRODUCERS w3) sem_post_empty w3 in
  let w5 := for_upto (NUM_CONSUMERS w4) sem_post_full w4 in
  Some w5.

(** ** The console variant of the program (the second source file)

    Its ring store is the one above, line for line.  It has no work counter
    and no lock in its handler; its flag is [stop_simulation]. *)
Module Console.

Record world := mkWorld {
  lanes : store;
  empty : Z;
  full : Z;
  stop_simulation : Z;
  total_produced : Z;
  total_consumed : Z;
  NUM_PRODUCERS : Z;
  NUM_CONSUMERS : Z;
  errors : list error
}.

Definition sem_post_empty (w : world) : world :=
  mkWorld (lanes w) (empty w + 1) (full w) (stop_simulation w)
          (total_produced w) (total_consumed w)
          (NUM_PRODUCERS w) (NUM_CONSUMERS w) (errors w).

Definition sem_post_full (w : world) : world :=
  mkWorld (lanes w) (empty w) (full w + 1) (stop_simulation w)
          (total_produced w) (total_consumed w)
          (NUM_PRODUCERS w) (NUM_CONSUMERS w) (errors w).

(** [void handle_sigint(int sig)] *)
Definition handle_sigint (w : world) : world :=
  let w1 := mkWorld (lanes w) (empty w) (full w) 1
                    (total_produced w) (total_consumed w)
                    (NUM_PRODUCERS w) (NUM_CONSUMERS w) (errors w) in
  let w2 := Nat.iter (Z.to_nat (NUM_PRODUCERS w1)) sem_post_empty w1 in
  Nat.iter (Z.to_nat (NUM_CONSUMERS w2)) sem_post_full w2.

(** The locked region of its [supplier], past the [stop_simulation] test:
    [add_product], then [update_statistics(1, 0)]. *)
Definition supplier_critical (item priority : Z) (w : world) : world :=
  let '(e, s') := add_product item priority (lanes w) in
  mkWorld s' (empty w) (full w) (stop_simulation w)
          (total_produced w + 1) (total_consumed w + 0)
          (NUM_PRODUCERS w) (NUM_CONSUMERS w)
          (match e with Some msg => msg :: errors w | None => errors w end).

End Console.

(** ** Startup configuration: the three input loops of [main]

    Standard input is the list of characters still to be read. *)

Definition INT_MIN : Z := - 2 ^ 31.
Definition INT_MAX : Z := 2 ^ 31 - 1.

Definition code (c : ascii) : Z := Z.of_N (N_of_ascii c).

(** [isspace]: space, and the controls from tab to carriage return. *)
Definition isspace (c : ascii) : bool :=
  (code c =? 32) || ((9 <=? code c) && (code c <=? 13)).

Definition digit_of (c : ascii) : option Z :=
  if (48 <=? code c) && (code c <=? 57) then Some (code c - 48) else None.

Fixpoint skip_space (inp : list ascii) : list ascii :=
  match inp with
  | c :: rest => if isspace c then skip_space rest else inp
  | [] => []
  end.

(** The longest run of decimal digits, accumulated in base ten. *)
Fixpoint scan_digits (acc : Z) (inp : list ascii) : Z * list ascii :=
  match inp with
  | c :: rest =>
      match digit_of c with
      | Some d => scan_digits (10 * acc + d) rest
      | None => (acc, inp)
      end
  | [] => (acc, [])
  end.

(** What [scanf("%d", &x)] does. *)
Inductive scan :=
| Assigned (v : Z)        (* returns 1, [x = v] *)
| Matching_failure        (* returns 0, [x] untouched *)
| Input_failure           (* returns EOF, [x] untouched *)
| Out_of_range.           (* the numeral does not fit an [int]: undefined *)

(** The directive [%d] of the C library: white space is skipped, an optional
    sign and then at least one digit are read; the first character that
    cannot continue the numeral stays in the input. *)
Definition scanf_d (inp : list ascii) : scan * list ascii :=
  match skip_space inp with
  | [] => (Input_failure, [])
  | c :: rest =>
      let negative := code c =? 45 in
      let body := if negative || (code c =? 43) then rest else c :: rest in
      match body with
      | [] => (Input_failure, [])
      | d :: _ =>
          match digit_of d with
          | None => (Matching_failure, body)
          | Some _ =>
              let '(n, rest') := scan_digits 0 body in
              let v := if negative then - n else n in
              if (INT_MIN <=? v) && (v <=? INT_MAX)
              then (Assigned v, rest')
              else (Out_of_range, rest')
          end
      end
  end.

(** [while (getchar() != '\n');]: the input after the first newline, or
    [None] when there is none and the loop reads [EOF] for ever. *)
Fixpoint discard_line (inp : list ascii) : option (list ascii) :=
  match inp with
  | [] => None
  | c :: rest => if code c =? 10 then Some rest else discard_line rest
  end.

Inductive read_result :=
| Accepted (v : Z) (rest : list ascii) (reprompts : nat)
| Hangs (reprompts : nat)     (* spins in the [getchar] loop at end of input *)
| Undefined                   (* [scanf] met a numeral outside [int] *)
| Out_of_fuel.

(** [while (scanf("%d", &x) != 1 || x <= 0) { printf("Invalid input...");
    while (getchar() != '\n'); }], counting the "Invalid input" prompts. *)
Fixpoint read_positive_loop (fuel reprompts : nat) (inp : list ascii)
  : read_result :=
  match fuel with
  | O => Out_of_fuel
  | S fuel' =>
      let again rest :=
        match discard_line rest with
        | None => Hangs (S reprompts)
        | Some rest' => read_positive_loop fuel' (S reprompts) rest'
        end in
      match scanf_d inp with
      | (Out_of_range, _) => Undefined
      | (Assigned v, rest) =>
          if v <=? 0 then again rest else Accepted v rest reprompts
      | (Matching_failure, rest) => again rest
      | (Input_failure, rest) => again rest
      end
  end.

(** Every turn of the loop but the last removes at least a newline from the
    input, so one more turn than there are characters is enough. *)
Definition read_positive (inp : list ascii) : read_result :=
  read_positive_loop (S (length inp)) 0 inp.

Inductive config_result :=
| Configured (np nc count : Z) (rest : list ascii)
| Config_hangs
| Config_undefined
| Config_out_of_fuel.

Definition lift_failure (r : read_result) : config_result :=
  match r with
  | Accepted _ _ _ => Config_out_of_fuel
  | Hangs _ => Config_hangs
  | Undefined => Config_undefined
  | Out_of_fuel => Config_out_of_fuel
  end.

(** The three prompts of [main], in order: [NUM_PRODUCERS], [NUM_CONSUMERS],
    [simulation_count]. *)
Definition read_config (inp : list ascii) : config_result :=
  match read_positive inp with
  | Accepted np rest1 _ =>
      match read_positive rest1 with
      | Accepted nc rest2 _ =>
          match read_positive rest2 with
          | Accepted count rest3 _ => Configured np nc count rest3
          | r => lift_failure r
          end
      | r => lift_failure r
      end
  | r => lift_failure r
  end.





(** The characters of a string literal, for writing inputs down. *)
Fixpoint chars (s : String.string) : list ascii :=
  match s with
  | String.EmptyString => []
  | String.String c s' => c :: chars s'
  end.

Definition newline : ascii := ascii_of_N 10.

(** ** Vocabulary of the statements *)

(** *** What a lane holds, oldest item first *)

Inductive lane := Normal_lane | Urgent_lane.

(** The lane [add_product] writes to for a priority tag: [if (priority)]. *)
Definition lane_of (priority : Z) : lane :=
  if priority =? 0 then Normal_lane else Urgent_lane.

(** The [count] cells of the ring [buf] from cursor [start] on. *)
Definition ring_items (buf : list Z) (start count : Z) : list Z :=
  map (fun k => rd buf (Z.rem (start + Z.of_nat k) BUFFER_SIZE))
      (seq 0 (Z.to_nat count)).

Definition items (l : lane) (s : store) : list Z :=
  match l with
  | Normal_lane => ring_items (buffer s) (out s) (normal_count s)
  | Urgent_lane => ring_items (urgent_buffer s) (urgent_out s) (urgent_count s)
  end.

(** The occupancy count of a lane: derived for the normal lane, stored for
    the urgent one. *)
Definition occupancy (l : lane) (s : store) : Z :=
  match l with
  | Normal_lane => normal_count s
  | Urgent_lane => urgent_count s
  end.

(** The fields of one lane, to say that a lane is left alone. *)
Definition lane_state (l : lane) (s : store) : list Z * Z * Z * Z :=
  match l with
  | Normal_lane => (buffer s, in_ s, out s, normal_count s)
  | Urgent_lane => (urgent_buffer s, urgent_in s, urgent_out s, urgent_count s)
  end.

Definition lane_empty (l : lane) (s : store) : Prop :=
  match l with
  | Normal_lane => in_ s = out s
  | Urgent_lane => urgent_count s = 0
  end.

(** A lane has room when one more item fits: the normal ring keeps one cell
    free, the urgent ring counts its items and can fill all its cells. *)
Definition has_room (l : lane) (s : store) : Prop :=
  match l with
  | Normal_lane => Z.rem (in_ s + 1) BUFFER_SIZE <> out s
  | Urgent_lane => urgent_count s < BUFFER_SIZE
  end.

(** The shape of a store: arrays of [BUFFER_SIZE] cells, cursors inside
    them, and an urgent count that is the distance between its cursors. *)
Record store_wf (s : store) : Prop := {
  wf_buffer : length (buffer s) = 10%nat;
  wf_urgent_buffer : length (urgent_buffer s) = 10%nat;
  wf_in : 0 <= in_ s < BUFFER_SIZE;
  wf_out : 0 <= out s < BUFFER_SIZE;
  wf_urgent_in : 0 <= urgent_in s < BUFFER_SIZE;
  wf_urgent_out : 0 <= urgent_out s < BUFFER_SIZE;
  wf_urgent_count : 0 <= urgent_count s <= BUFFER_SIZE;
  wf_urgent_ring :
    urgent_in s = (urgent_out s + urgent_count s) mod BUFFER_SIZE
}.

(** *** What a run does to the lanes *)

Inductive obs :=
| Inserted (l : lane) (item : Z)
| Served (l : lane) (item : Z).

(** The item [add_product] stores, if it stores one. *)
Definition insertion (item priority : Z) (s : store) : list obs :=
  match add_product item priority s with
  | (None, _) => [Inserted (lane_of priority) item]
  | (Some _, _) => []
  end.

(** The item the locked region of [retailer] takes out, if it takes one. *)
Definition extraction (s : store) : list obs :=
  if (in_ s =? out s) && (urgent_count s =? 0) then []
  else
    [Served (if 0 <? urgent_count s then Urgent_lane else Normal_lane)
            (extract_product s).1.1].

(** What the piece about to run does to the lanes. *)
Definition observe (ev : event) (sys : system) : list obs :=
  match ev with
  | Supplier i _ _ =>
      match suppliers sys !! i with
      | Some (S_crit item priority) =>
          insertion item priority (lanes (globals sys))
      | _ => []
      end
  | Retailer j =>
      match retailers sys !! j with
      | Some R_crit => extraction (lanes (globals sys))
      | _ => []
      end
  end.

(** The observations of a run, in order; empty where the run is stuck. *)
Fixpoint history (evs : list event) (sys : system) : list obs :=
  match evs with
  | [] => []
  | ev :: evs' =>
      match step ev sys with
      | Some sys' => observe ev sys ++ history evs' sys'
      | None => []
      end
  end.

Definition same_lane (a b : lane) : bool :=
  match a, b with
  | Normal_lane, Normal_lane | Urgent_lane, Urgent_lane => true
  | _, _ => false
  end.

Fixpoint inserted (l : lane) (h : list obs) : list Z :=
  match h with
  | [] => []
  | Inserted l' x :: h' =>
      if same_lane l' l then x :: inserted l h' else inserted l h'
  | Served _ _ :: h' => inserted l h'
  end.

Fixpoint served (l : lane) (h : list obs) : list Z :=
  match h with
  | [] => []
  | Served l' x :: h' =>
      if same_lane l' l then x :: served l h' else served l h'
  | Inserted _ _ :: h' => served l h'
  end.

(** *** The tokens of the gate *)

(** A thread between its [sem_wait] and its [sem_post] holds one token. *)
Definition supplier_holds (pc : supplier_pc) : Z :=
  match pc with
  | S_crit _ _ | S_post => 1
  | _ => 0
  end.

Definition retailer_holds (pc : retailer_pc) : Z :=
  match pc with
  | R_crit | R_repost | R_release => 1
  | _ => 0
  end.

(** A held token that stands for a filled slot: a supplier past its locked
    region, a retailer that has not taken an item out. *)
Definition supplier_filled (pc : supplier_pc) : Z :=
  match pc with
  | S_post => 1
  | _ => 0
  end.

Definition retailer_filled (pc : retailer_pc) : Z :=
  match pc with
  | R_crit | R_repost => 1
  | _ => 0
  end.

Definition total {A} (f : A -> Z) (l : list A) : Z :=
  foldr (fun x acc => f x + acc) 0 l.

#[global] Arguments total {A} f l : simpl never.

Definition stock (s : store) : Z := normal_count s + urgent_count s.

(** What every run from [init_system] keeps true. *)
Record gate_inv (sys : system) : Prop := {
  gi_mutex : mutex (globals sys) = false;
  gi_store : store_wf (lanes (globals sys));
  gi_empty : 0 <= empty (globals sys);
  gi_full : 0 <= full (globals sys);
  gi_tokens :
    empty (globals sys) + full (globals sys)
    + total supplier_holds (suppliers sys)
    + total retailer_holds (retailers sys) = BUFFER_SIZE;
  gi_stock :
    stock (lanes (globals sys))
    <= full (globals sys)
       + total supplier_filled (suppliers sys)
       + total retailer_filled (retailers sys)
}.

(** ** Further code and vocabulary *)

(** [n] calls of [extract_product] in a row: the values returned and the
    store left. *)
Fixpoint drain (n : nat) (s : store) : list Z * store :=
  match n with
  | O => ([], s)
  | S n' =>
      let '(item, _, s1) := extract_product s in
      let '(rest, s2) := drain n' s1 in
      (item :: rest, s2)
  end.

(** [void print_final_statistics()]: the four numbers it prints, in order:
    total produced, total consumed, normal items, urgent items. *)
Definition print_final_statistics (w : world) : Z * Z * Z * Z :=
  (total_produced w, total_consumed w,
   normal_count (lanes w), urgent_count (lanes w)).

(** How many items a history puts in and takes out, both lanes together. *)
Definition inserted_count (h : list obs) : Z :=
  Z.of_nat (length (inserted Normal_lane h))
  + Z.of_nat (length (inserted Urgent_lane h)).

Definition served_count (h : list obs) : Z :=
  Z.of_nat (length (served Normal_lane h))
  + Z.of_nat (length (served Urgent_lane h)).

(** [rand()] returns a value between [0] and [RAND_MAX]. *)
Definition rand_ok (ev : event) : Prop :=
  match ev with
  | Supplier _ r1 r2 => 0 <= r1 /\ 0 <= r2
  | Retailer _ => True
  end.

(** The item and the priority a supplier carries to its locked region come
    from [rand() % 100] and [rand() % MAX_PRIORITY]. *)
Definition drawn (pc : supplier_pc) : Prop :=
  match pc with
  | S_wait item priority | S_crit item priority =>
      0 <= item < 100 /\ 0 <= priority < MAX_PRIORITY
  | _ => True
  end.

(** A retailer that has used up one unit of [simulation_count] and has not
    yet come out of its locked region. *)
Definition retailer_pending (pc : retailer_pc) : Z :=
  match pc with
  | R_wait | R_crit => 1
  | _ => 0
  end.

(** The work counter is used up, no filled slot is left, and no thread is
    on its way to post one. *)
Record stranded (sys : system) : Prop := {
  sd_mutex : mutex (globals sys) = false;
  sd_count : simulation_count (globals sys) <= 0;
  sd_full : full (globals sys) = 0;
  sd_suppliers :
    Forall (fun pc => pc = S_check \/ pc = S_exit) (suppliers sys);
  sd_retailers :
    Forall (fun pc => pc = R_check \/ pc = R_wait \/ pc = R_exit)
           (retailers sys)
}.

(** Every item in the lanes is a value of [rand() % 100]. *)
Definition items_drawn (s : store) : Prop :=
  forall l, Forall (fun x => 0 <= x < 100) (items l s).

(** The filled-slot tokens: those in [full] and those in the hands of a
    thread on its way to post or to use one. *)
Definition filled_tokens (sys : system) : Z :=
  full (globals sys)
  + total supplier_filled (suppliers sys)
  + total retailer_filled (retailers sys).

(** SIGINT delivered while the threads run.  The handler runs in the thread
    that receives the signal; between its posts and its [exit(0)] it prints
    the final statistics and sleeps, and the worker threads go on. *)
Definition deliver_sigint (sys : system) : option system :=
  w ← sigint_handler (globals sys);
  Some (mkSystem w (suppliers sys) (retailers sys)).

(** *** After shutdown *)

Definition supplier_waiting (pc : supplier_pc) : Z :=
  match pc with
  | S_wait _ _ => 1
  | _ => 0
  end.

Definition retailer_waiting (pc : retailer_pc) : Z :=
  match pc with
  | R_wait => 1
  | _ => 0
  end.

(** The pieces a thread still has to run before it leaves its loop, once
    the work counter is at zero. *)
Definition supplier_left (pc : supplier_pc) : Z :=
  match pc with
  | S_wait _ _ => 4
  | S_crit _ _ => 3
  | S_post => 2
  | S_check => 1
  | S_exit => 0
  end.

Definition retailer_left (pc : retailer_pc) : Z :=
  match pc with
  | R_wait => 4
  | R_crit => 3
  | R_repost | R_release => 2
  | R_check => 1
  | R_exit => 0
  end.

Definition pieces_left (sys : system) : Z :=
  total supplier_left (suppliers sys) + total retailer_left (retailers sys).

(** The work counter is at zero and each semaphore holds a token for every
    thread waiting on it. *)
Record stopped (sys : system) : Prop := {
  st_mutex : mutex (globals sys) = false;
  st_count : simulation_count (globals sys) <= 0;
  st_empty : total supplier_waiting (suppliers sys) <= empty (globals sys);
  st_full : total retailer_waiting (retailers sys) <= full (globals sys)
}.



(** *** The commands of the console variant ([user_input]) *)
Module UserInput.

(** The locked region of the command "remove": the item taken out, or
    [None] for "No items to remove!". *)
Definition remove_command (w : Console.world) : option Z * Console.world :=
  if (0 <? normal_count (Console.lanes w))
     || (0 <? urgent_count (Console.lanes w)) then
    let '(item, e, s') := extract_product (Console.lanes w) in
    (Some item,
     Console.mkWorld s' (Console.empty w) (Console.full w)
       (Console.stop_simulation w)
       (Console.total_produced w) (Console.total_consumed w)
       (Console.NUM_PRODUCERS w) (Console.NUM_CONSUMERS w)
       (match e with
        | Some msg => msg :: Console.errors w
        | None => Console.errors w
        end))
  else (None, w).

(** The locked region of the command "add", with the two numbers [atoi]
    returned: [add_product], with no semaphore around it. *)
Definition add_command (item priority : Z) (w : Console.world)
  : Console.world :=
  let '(e, s') := add_product item priority (Console.lanes w) in
  Console.mkWorld s' (Console.empty w) (Console.full w)
    (Console.stop_simulation w)
    (Console.total_produced w) (Console.total_consumed w)
    (Console.NUM_PRODUCERS w) (Console.NUM_CONSUMERS w)
    (match e with
     | Some msg => msg :: Console.errors w
     | None => Console.errors w
     end).

End UserInput.

(** * Properties *)

(** ** Cursor arithmetic *)

Lemma rem_wrap (x : Z) :
  0 <= x < 20 -> Z.rem x BUFFER_SIZE = if x <? 10 then x else x - 10.
Proof.
  intros Hx. unfold BUFFER_SIZE.
  rewrite Z.rem_mod_nonneg by lia.
  destruct (x <? 10) eqn:E.
  - apply Z.mod_small. lia.
  - apply Z.ltb_ge in E.
    replace x with (x - 10 + 1 * 10) at 1 by lia.
    rewrite Z_mod_plus_full. apply Z.mod_small. lia.
Qed.

Lemma mod_wrap (x : Z) :
  0 <= x < 20 -> x mod BUFFER_SIZE = if x <? 10 then x else x - 10.
Proof.
  intros Hx. rewrite <- rem_wrap by done.
  unfold BUFFER_SIZE. symmetry. apply Z.rem_mod_nonneg; lia.
Qed.

Lemma rem_cursor (x : Z) :
  0 <= x < BUFFER_SIZE -> 0 <= Z.rem (x + 1) BUFFER_SIZE < BUFFER_SIZE.
Proof.
  unfold BUFFER_SIZE at 1. intros Hx. rewrite rem_wrap by lia.
  unfold BUFFER_SIZE. destruct (x + 1 <? 10) eqn:E; lia.
Qed.

(** For cursors inside the ring the derived count is their distance. *)
Lemma normal_count_distance (s : store) :
  0 <= in_ s < BUFFER_SIZE -> 0 <= out s < BUFFER_SIZE ->
  normal_count s = if out s <=? in_ s then in_ s - out s
                   else in_ s - out s + 10.
Proof.
  unfold BUFFER_SIZE at 1 2. intros Hi Ho. unfold normal_count.
  rewrite rem_wrap by (unfold BUFFER_SIZE; lia). unfold BUFFER_SIZE.
  destruct (out s <=? in_ s) eqn:E1; destruct (in_ s - out s + 10 <? 10) eqn:E2;
    lia.
Qed.

(** ** Array reads and writes *)

Lemma rd_wr_same (a : list Z) (i v : Z) :
  0 <= i < Z.of_nat (length a) -> rd (wr a i v) i = v.
Proof.
  intros Hi. unfold rd, wr, in_bounds.
  replace ((0 <=? i) && (i <? Z.of_nat (length a))) with true by lia.
  rewrite length_insert.
  replace ((0 <=? i) && (i <? Z.of_nat (length a))) with true by lia.
  apply list_lookup_total_insert_eq. lia.
Qed.

Lemma rd_wr_other (a : list Z) (i j v : Z) :
  i <> j -> rd (wr a i v) j = rd a j.
Proof.
  intros Hne. unfold rd, wr, in_bounds.
  destruct ((0 <=? i) && (i <? Z.of_nat (length a))) eqn:Ei; [|done].
  rewrite length_insert.
  destruct ((0 <=? j) && (j <? Z.of_nat (length a))) eqn:Ej; [|done].
  apply list_lookup_total_insert_ne. lia.
Qed.

Lemma length_wr (a : list Z) (i v : Z) : length (wr a i v) = length a.
Proof. unfold wr. destruct (in_bounds a i); [apply length_insert|done]. Qed.

(** ** Rings as queues *)

(** Taking the head cell off a ring leaves the rest of its items. *)
Lemma ring_items_pop (buf : list Z) (start count : Z) :
  0 <= start < BUFFER_SIZE -> 0 < count ->
  ring_items buf start count
  = rd buf start
    :: ring_items buf (Z.rem (start + 1) BUFFER_SIZE) (count - 1).
Proof.
  unfold BUFFER_SIZE at 1. intros Hs Hc. unfold ring_items.
  replace (Z.to_nat count) with (S (Z.to_nat (count - 1))) by lia.
  cbn [seq map]. f_equal.
  - f_equal. rewrite Nat2Z.inj_0, Z.add_0_r, rem_wrap by lia.
    replace (start <? 10) with true by lia. done.
  - rewrite <- seq_shift, map_map.
    apply map_ext. intros k. f_equal. unfold BUFFER_SIZE.
    assert (0 <= Z.rem (start + 1) 10) by (apply Z.rem_nonneg; lia).
    rewrite (Z.rem_mod_nonneg (start + Z.of_nat (S k))) by lia.
    rewrite (Z.rem_mod_nonneg (Z.rem (start + 1) 10 + Z.of_nat k)) by lia.
    rewrite (Z.rem_mod_nonneg (start + 1)) by lia.
    rewrite Zplus_mod_idemp_l. f_equal. lia.
Qed.

(** Writing at the tail cell of a ring that is not full adds the item last. *)
Lemma ring_items_push (buf : list Z) (start count v : Z) :
  length buf = 10%nat -> 0 <= start < BUFFER_SIZE -> 0 <= count < BUFFER_SIZE ->
  ring_items (wr buf ((start + count) mod BUFFER_SIZE) v) start (count + 1)
  = ring_items buf start count ++ [v].
Proof.
  unfold BUFFER_SIZE at 1 2. intros Hlen Hs Hc. unfold ring_items.
  replace (Z.to_nat (count + 1)) with (S (Z.to_nat count)) by lia.
  rewrite seq_S, map_app. cbn [map Nat.add]. f_equal.
  - apply map_ext_in. intros k Hk. apply in_seq in Hk.
    apply rd_wr_other.
    rewrite mod_wrap by lia. rewrite rem_wrap by lia.
    destruct (start + count <? 10) eqn:E1;
      destruct (start + Z.of_nat k <? 10) eqn:E2; lia.
  - f_equal. rewrite Z2Nat.id by lia.
    rewrite Z.rem_mod_nonneg by (unfold BUFFER_SIZE; lia).
    apply rd_wr_same. rewrite Hlen.
    pose proof (Z.mod_pos_bound (start + count) BUFFER_SIZE).
    unfold BUFFER_SIZE in *. lia.
Qed.

(** Items of a ring do not depend on cells outside of it. *)
Lemma ring_items_same_count (buf : list Z) (start c1 c2 : Z) :
  c1 = c2 -> ring_items buf start c1 = ring_items buf start c2.
Proof. by intros ->. Qed.

(** ** The store operations on well-formed stores *)

Lemma init_store_wf : store_wf init_store.
Proof. by split; unfold BUFFER_SIZE; simpl; try lia. Qed.

Lemma add_product_overflow_iff (item priority : Z) (s : store) :
  (add_product item priority s).1 = Some Buffer_overflow
  <-> Z.rem (in_ s + 1) BUFFER_SIZE = out s.
Proof.
  unfold add_product.
  destruct (Z.rem (in_ s + 1) BUFFER_SIZE =? out s) eqn:E.
  - apply Z.eqb_eq in E. by split.
  - apply Z.eqb_neq in E. destruct (negb (priority =? 0)); by split.
Qed.

Lemma add_product_failure_noop (item priority : Z) (s : store) (e : error) :
  (add_product item priority s).1 = Some e ->
  (add_product item priority s).2 = s.
Proof.
  unfold add_product.
  destruct (Z.rem (in_ s + 1) BUFFER_SIZE =? out s); [done|].
  by destruct (negb (priority =? 0)).
Qed.

Lemma add_product_wf (item priority : Z) (s : store) :
  store_wf s ->
  (priority <> 0 -> urgent_count s < BUFFER_SIZE) ->
  store_wf (add_product item priority s).2.
Proof.
  intros [] Hroom. unfold add_product.
  destruct (Z.rem (in_ s + 1) BUFFER_SIZE =? out s); [by split|].
  destruct (priority =? 0) eqn:Ep; cbn [negb snd].
  - split; cbn; rewrite ?length_wr; auto using rem_cursor.
  - apply Z.eqb_neq in Ep. specialize (Hroom Ep).
    split; cbn; rewrite ?length_wr; auto using rem_cursor; [lia|].
    unfold BUFFER_SIZE in *.
    rewrite wf_urgent_ring0, Z.rem_mod_nonneg
      by (pose proof (Z.mod_pos_bound (urgent_out s + urgent_count s) 10); lia).
    rewrite Zplus_mod_idemp_l. f_equal. lia.
Qed.

Lemma extract_product_wf (s : store) :
  store_wf s -> store_wf (extract_product s).2.
Proof.
  intros []. unfold extract_product.
  destruct ((in_ s =? out s) && (urgent_count s =? 0)); [by split|].
  destruct (0 <? urgent_count s) eqn:Eu; cbn [snd].
  - apply Z.ltb_lt in Eu.
    split; cbn; auto using rem_cursor; [lia|].
    unfold BUFFER_SIZE in *.
    rewrite wf_urgent_ring0, Z.rem_mod_nonneg by lia.
    rewrite Zplus_mod_idemp_l. f_equal. lia.
  - split; cbn; auto using rem_cursor.
Qed.

(** A successful urgent insert into a lane with room appends to the urgent
    queue and keeps the normal one. *)
Lemma add_product_urgent_items (item priority : Z) (s : store) :
  store_wf s -> priority <> 0 -> urgent_count s < BUFFER_SIZE ->
  (add_product item priority s).1 = None ->
  items Urgent_lane (add_product item priority s).2
    = items Urgent_lane s ++ [item]
  /\ items Normal_lane (add_product item priority s).2 = items Normal_lane s.
Proof.
  intros [] Hp Hroom. unfold add_product.
  destruct (Z.rem (in_ s + 1) BUFFER_SIZE =? out s); [done|].
  apply Z.eqb_neq in Hp. rewrite Hp. cbn [negb snd]. intros _.
  split; [|done]. cbn. rewrite wf_urgent_ring0.
  apply ring_items_push; unfold BUFFER_SIZE in *; lia.
Qed.

(** A successful normal insert appends to the normal queue and keeps the
    urgent one. *)
Lemma add_product_normal_items (item priority : Z) (s : store) :
  store_wf s -> priority = 0 ->
  (add_product item priority s).1 = None ->
  items Normal_lane (add_product item priority s).2
    = items Normal_lane s ++ [item]
  /\ items Urgent_lane (add_product item priority s).2 = items Urgent_lane s.
Proof.
  intros [] -> . unfold add_product.
  destruct (Z.rem (in_ s + 1) BUFFER_SIZE =? out s) eqn:Efull; [done|].
  apply Z.eqb_neq in Efull. cbn [negb Z.eqb snd]. intros _.
  split; [|done]. cbn.
  unfold BUFFER_SIZE in *. rewrite rem_wrap in Efull by lia.
  assert (Hin : in_ s = (out s + normal_count s) mod BUFFER_SIZE).
  { rewrite normal_count_distance by (unfold BUFFER_SIZE; lia).
    rewrite mod_wrap by (destruct (out s <=? in_ s) eqn:E; lia).
    destruct (out s <=? in_ s) eqn:E.
    - replace (out s + (in_ s - out s) <? 10) with true by lia. lia.
    - replace (out s + (in_ s - out s + 10) <? 10) with false by lia. lia. }
  assert (Hcnt : normal_count
            (mkStore (wr (buffer s) (in_ s) item) (Z.rem (in_ s + 1) 10)
               (out s) (urgent_buffer s) (urgent_in s) (urgent_out s)
               (urgent_count s)) = normal_count s + 1).
  { rewrite !normal_count_distance; cbn;
      rewrite ?rem_wrap by lia; unfold BUFFER_SIZE;
      destruct (in_ s + 1 <? 10) eqn:E1; try lia;
      destruct (out s <=? in_ s) eqn:E2; try lia.
    - replace (out s <=? in_ s + 1) with true by lia. lia.
    - replace (out s <=? in_ s + 1) with false by lia. lia.
    - replace (out s <=? in_ s + 1 - 10) with false by lia. lia. }
  rewrite Hcnt. rewrite Hin at 1.
  apply ring_items_push; unfold BUFFER_SIZE; try lia.
  rewrite normal_count_distance by (unfold BUFFER_SIZE; lia).
  destruct (in_ s + 1 <? 10) eqn:E1; destruct (out s <=? in_ s) eqn:E2; lia.
Qed.

(** Extraction with a non-empty urgent lane takes the oldest urgent item. *)
Lemma extract_product_urgent_items (s : store) :
  store_wf s -> 0 < urgent_count s ->
  items Urgent_lane s
    = (extract_product s).1.1 :: items Urgent_lane (extract_product s).2
  /\ items Normal_lane (extract_product s).2 = items Normal_lane s.
Proof.
  intros [] Hu. unfold extract_product.
  replace ((in_ s =? out s) && (urgent_count s =? 0)) with false by lia.
  replace (0 <? urgent_count s) with true by lia. cbn.
  split; [|done]. by apply ring_items_pop.
Qed.

(** Extraction with an empty urgent lane takes the oldest normal item. *)
Lemma extract_product_normal_items (s : store) :
  store_wf s -> urgent_count s = 0 -> in_ s <> out s ->
  items Normal_lane s
    = (extract_product s).1.1 :: items Normal_lane (extract_product s).2
  /\ items Urgent_lane (extract_product s).2 = items Urgent_lane s.
Proof.
  intros [] Hu Hne. unfold extract_product.
  replace ((in_ s =? out s) && (urgent_count s =? 0)) with false by lia.
  replace (0 <? urgent_count s) with false by lia. cbn.
  split; [|done].
  unfold BUFFER_SIZE in *.
  rewrite (ring_items_pop (buffer s) (out s) (normal_count s)).
  - f_equal. apply ring_items_same_count.
    rewrite !normal_count_distance; cbn;
      rewrite ?rem_wrap by lia; unfold BUFFER_SIZE;
      destruct (out s + 1 <? 10) eqn:E1; try lia;
      destruct (out s <=? in_ s) eqn:E2; try lia.
    + replace (out s + 1 <=? in_ s) with true by lia. lia.
    + replace (out s + 1 <=? in_ s) with false by lia. lia.
    + replace (out s + 1 - 10 <=? in_ s) with true by lia. lia.
  - unfold BUFFER_SIZE. lia.
  - rewrite normal_count_distance by (unfold BUFFER_SIZE; lia).
    destruct (out s <=? in_ s) eqn:E2; lia.
Qed.

(** ** Extraction order *)

(** C1.  Whatever the store, [extract_product] with a non-empty urgent lane
    returns the cell at the urgent head cursor, advances that cursor and
    decrements the urgent count; with an empty urgent lane and a non-empty
    normal lane it returns the cell at the normal head cursor and advances
    it.  When both lanes hold items the item served is therefore the urgent
    one.  On a well-formed store the item returned is the oldest item of the
    lane served and the lane keeps the others. *)
Theorem extract_product_urgent_first (s : store) :
  (0 < urgent_count s ->
   extract_product s
   = (rd (urgent_buffer s) (urgent_out s), None,
      mkStore (buffer s) (in_ s) (out s) (urgent_buffer s) (urgent_in s)
              (Z.rem (urgent_out s + 1) BUFFER_SIZE) (urgent_count s - 1)))
  /\ (~ 0 < urgent_count s -> in_ s <> out s ->
      extract_product s
      = (rd (buffer s) (out s), None,
         mkStore (buffer s) (in_ s) (Z.rem (out s + 1) BUFFER_SIZE)
                 (urgent_buffer s) (urgent_in s) (urgent_out s)
                 (urgent_count s)))
  /\ (0 < urgent_count s -> in_ s <> out s ->
      extraction s
      = [Served Urgent_lane (rd (urgent_buffer s) (urgent_out s))])
  /\ (store_wf s ->
      forall x q, items Urgent_lane s = x :: q ->
        (extract_product s).1.1 = x
        /\ items Urgent_lane (extract_product s).2 = q)
  /\ (store_wf s -> items Urgent_lane s = [] ->
      forall x q, items Normal_lane s = x :: q ->
        (extract_product s).1.1 = x
        /\ items Normal_lane (extract_product s).2 = q).
Proof.
  split_and!.
  - intros Hu. unfold extract_product.
    replace ((in_ s =? out s) && (urgent_count s =? 0)) with false by lia.
    by replace (0 <? urgent_count s) with true by lia.
  - intros Hu Hne. unfold extract_product.
    replace ((in_ s =? out s) && (urgent_count s =? 0)) with false by lia.
    by replace (0 <? urgent_count s) with false by lia.
  - intros Hu Hne. unfold extraction, extract_product.
    replace ((in_ s =? out s) && (urgent_count s =? 0)) with false by lia.
    by replace (0 <? urgent_count s) with true by lia.
  - intros Hwf x q Hq.
    assert (Hu : 0 < urgent_count s).
    { destruct (decide (0 < urgent_count s)) as [|Hn]; [done|].
      destruct Hwf. cbn in Hq. unfold ring_items in Hq.
      replace (Z.to_nat (urgent_count s)) with 0%nat in Hq by lia. done. }
    destruct (extract_product_urgent_items s Hwf Hu) as [Hh _].
    rewrite Hq in Hh. by injection Hh as -> ->.
  - intros Hwf Hnil x q Hq.
    assert (Hu : urgent_count s = 0).
    { destruct (decide (0 < urgent_count s)) as [Hpos|Hn].
      - destruct (extract_product_urgent_items s Hwf Hpos) as [Hh _].
        by rewrite Hnil in Hh.
      - destruct Hwf. lia. }
    assert (Hne : in_ s <> out s).
    { intros Heq. cbn in Hq. unfold ring_items, normal_count in Hq.
      rewrite Heq in Hq.
      replace (out s - out s + BUFFER_SIZE) with BUFFER_SIZE in Hq by lia.
      by rewrite Z.rem_same in Hq. }
    destruct (extract_product_normal_items s Hwf Hu Hne) as [Hh _].
    rewrite Hq in Hh. by injection Hh as -> ->.
Qed.

Lemma extract_product_urgent_first_witness :
  let s := mkStore [7; 0; 0; 0; 0; 0; 0; 0; 0; 0] 1 0
                   [5; 0; 0; 0; 0; 0; 0; 0; 0; 0] 1 0 1 in
  0 < urgent_count s /\ in_ s <> out s
  /\ extract_product s
     = (5, None, mkStore (buffer s) 1 0 (urgent_buffer s) 1 1 0)
  /\ extraction s = [Served Urgent_lane 5].
Proof.
  intros s.
  pose proof (extract_product_urgent_first s) as (H1 & _ & H3 & _).
  assert (Hu : 0 < urgent_count s) by (simpl; lia).
  assert (Hne : in_ s <> out s) by (simpl; lia).
  split; [exact Hu|]. split; [exact Hne|].
  split; [exact (H1 Hu)|exact (H3 Hu Hne)].
Defined.

(** ** The overflow guard of [add_product] *)

(** C2.  [add_product] tests one condition before it looks at the priority
    tag: the normal ring is full.  It logs "Buffer overflow" exactly then,
    whichever lane the item is for, and then changes nothing.  So an urgent
    item is refused while the urgent lane is empty (first store below), and
    is written over the oldest unread urgent item when the urgent lane is
    full (second store below): the guard does not follow the target lane. *)
Theorem add_product_guards_normal_lane_only :
  (forall item priority s,
     (add_product item priority s).1 = Some Buffer_overflow
     <-> ~ has_room Normal_lane s)
  /\ (forall item priority s e,
        (add_product item priority s).1 = Some e ->
        (add_product item priority s).2 = s)
  /\ (let s := mkStore [1; 2; 3; 4; 5; 6; 7; 8; 9; 0] 9 0
                       (replicate 10 0) 0 0 0 in
      store_wf s /\ has_room Urgent_lane s
      /\ add_product 42 1 s = (Some Buffer_overflow, s))
  /\ (let s := mkStore (replicate 10 0) 0 0
                       [1; 2; 3; 4; 5; 6; 7; 8; 9; 10] 0 0 10 in
      store_wf s /\ ~ has_room Urgent_lane s
      /\ add_product 42 1 s
         = (None, mkStore (replicate 10 0) 0 0
                          [42; 2; 3; 4; 5; 6; 7; 8; 9; 10] 1 0 11)).
Proof.
  split_and!.
  - intros item priority s. rewrite add_product_overflow_iff. cbn.
    split; [tauto|]. intros H.
    by destruct (decide (Z.rem (in_ s + 1) BUFFER_SIZE = out s)).
  - apply add_product_failure_noop.
  - intros s. split_and!; [|cbn; unfold BUFFER_SIZE; lia|done].
    by split; unfold BUFFER_SIZE; simpl; try lia.
  - intros s. split_and!; [|cbn; unfold BUFFER_SIZE; lia|done].
    by split; unfold BUFFER_SIZE; simpl; try lia.
Qed.

(** ** Stock classification *)

(** C5.  The stock level depends on the two occupancy counts only, through
    their sum: at most [1] is LOW, at least [9] is HIGH, anything between is
    NORMAL; [stock_alert] applies it to the counts of the store.  Totals
    [1], [9] and [5] are LOW, HIGH and NORMAL. *)
Theorem classify_thresholds :
  (forall n u, n + u <= 1 -> classify n u = LOW)
  /\ (forall n u, 9 <= n + u -> classify n u = HIGH)
  /\ (forall n u, 1 < n + u < 9 -> classify n u = NORMAL)
  /\ (forall s, stock_alert s = classify (normal_count s) (urgent_count s))
  /\ (forall n u, n + u = 1 -> classify n u = LOW)
  /\ (forall n u, n + u = 9 -> classify n u = HIGH)
  /\ (forall n u, n + u = 5 -> classify n u = NORMAL).
Proof.
  unfold classify, LOW_STOCK_THRESHOLD, HIGH_STOCK_THRESHOLD.
  split_and!; try done; intros n u H; cbn zeta.
  - by replace (n + u <=? 1) with true by lia.
  - replace (n + u <=? 1) with false by lia.
    by replace (9 <=? n + u) with true by lia.
  - replace (n + u <=? 1) with false by lia.
    by replace (9 <=? n + u) with false by lia.
  - by replace (n + u <=? 1) with true by lia.
  - replace (n + u <=? 1) with false by lia.
    by replace (9 <=? n + u) with true by lia.
  - replace (n + u <=? 1) with false by lia.
    by replace (9 <=? n + u) with false by lia.
Qed.

Lemma classify_thresholds_witness :
  classify 1 0 = LOW /\ classify 4 5 = HIGH /\ classify 3 2 = NORMAL
  /\ classify 0 0 = LOW /\ classify 9 10 = HIGH.
Proof.
  pose proof classify_thresholds as (Hl & Hh & Hn & _ & H1 & H9 & H5).
  split_and!.
  - apply H1. lia.
  - apply H9. lia.
  - apply H5. lia.
  - apply Hl. lia.
  - apply Hh. lia.
Defined.

(** ** Frame *)

(** C10.  An urgent insert leaves the normal lane as it was (array, both
    cursors, derived count) and a normal insert leaves the urgent lane as it
    was (array, both cursors, count); an extraction that serves the urgent
    lane leaves the normal lane as it was, and one that does not serve the
    urgent lane leaves the urgent lane as it was. *)
Theorem operations_frame (s : store) :
  (forall item priority, priority <> 0 ->
     lane_state Normal_lane (add_product item priority s).2
     = lane_state Normal_lane s)
  /\ (forall item priority, priority = 0 ->
        lane_state Urgent_lane (add_product item priority s).2
        = lane_state Urgent_lane s)
  /\ (0 < urgent_count s ->
      lane_state Normal_lane (extract_product s).2 = lane_state Normal_lane s)
  /\ (~ 0 < urgent_count s ->
      lane_state Urgent_lane (extract_product s).2 = lane_state Urgent_lane s).
Proof.
  split_and!.
  - intros item priority Hp. unfold add_product.
    destruct (Z.rem (in_ s + 1) BUFFER_SIZE =? out s); [done|].
    apply Z.eqb_neq in Hp. by rewrite Hp.
  - intros item priority ->. unfold add_product.
    by destruct (Z.rem (in_ s + 1) BUFFER_SIZE =? out s).
  - intros Hu. unfold extract_product.
    destruct ((in_ s =? out s) && (urgent_count s =? 0)); [done|].
    by replace (0 <? urgent_count s) with true by lia.
  - intros Hu. unfold extract_product.
    destruct ((in_ s =? out s) && (urgent_count s =? 0)); [done|].
    by replace (0 <? urgent_count s) with false by lia.
Qed.

Lemma operations_frame_witness :
  let s := mkStore [7; 0; 0; 0; 0; 0; 0; 0; 0; 0] 1 0
                   [5; 0; 0; 0; 0; 0; 0; 0; 0; 0] 1 0 1 in
  lane_state Normal_lane (add_product 3 1 s).2 = lane_state Normal_lane s
  /\ lane_state Urgent_lane (add_product 3 0 s).2 = lane_state Urgent_lane s
  /\ lane_state Normal_lane (extract_product s).2 = lane_state Normal_lane s
  /\ lane_state Urgent_lane (extract_product (extract_product s).2).2
     = lane_state Urgent_lane (extract_product s).2.
Proof.
  intros s.
  pose proof (operations_frame s) as (H1 & H2 & H3 & _).
  pose proof (operations_frame (extract_product s).2) as (_ & _ & _ & H4).
  split_and!.
  - apply H1. lia.
  - by apply H2.
  - apply H3. simpl. lia.
  - apply H4. simpl. lia.
Defined.

(** ** Underflow and the retry of the retailer *)

Lemma sem_post_after_wait_full (w0 w : world) :
  sem_wait_full w0 = Some w -> sem_post_full w = w0.
Proof.
  unfold sem_wait_full. destruct (0 <? full w0); [|done].
  intros [= <-]. destruct w0. unfold sem_post_full, set_full. cbn.
  f_equal. lia.
Qed.

Lemma sem_wait_full_frame (w0 w : world) :
  sem_wait_full w0 = Some w ->
  mutex w = mutex w0 /\ lanes w = lanes w0.
Proof.
  unfold sem_wait_full. destruct (0 <? full w0); [|done]. by intros [= <-].
Qed.

Lemma unlock_after_lock (w : world) :
  mutex w = false -> pthread_mutex_unlock (set_mutex true w) = w.
Proof. destruct w. cbn. by intros ->. Qed.

(** C7.  [extract_product] logs "Buffer underflow" exactly when the normal
    cursors are equal and the urgent count is zero, and it then returns the
    sentinel [-1] and leaves the store alone.  A retailer that finds the
    store in that state after [sem_wait(&full)] unlocks without calling
    [extract_product] or [update_statistics]: the globals are what they were
    when the lock was taken; it then posts [full] again, which puts the
    semaphore back to its value before the wait, and goes back to the top of
    its loop. *)
Theorem underflow_and_retry :
  (forall s,
     (extract_product s).1.2 = Some Buffer_underflow
     <-> in_ s = out s /\ urgent_count s = 0)
  /\ (forall s, in_ s = out s -> urgent_count s = 0 ->
        extract_product s = (-1, Some Buffer_underflow, s))
  /\ (forall w0 w,
        mutex w0 = false -> sem_wait_full w0 = Some w ->
        in_ (lanes w) = out (lanes w) -> urgent_count (lanes w) = 0 ->
        retailer_step R_crit w = Some (R_repost, w)
        /\ retailer_step R_repost w = Some (R_check, w0)).
Proof.
  split_and!.
  - intros s. unfold extract_product.
    destruct ((in_ s =? out s) && (urgent_count s =? 0)) eqn:E.
    + split; [lia|done].
    + split; [|lia]. by destruct (0 <? urgent_count s).
  - intros s Hio Hu. unfold extract_product.
    by replace ((in_ s =? out s) && (urgent_count s =? 0)) with true by lia.
  - intros w0 w Hm Hwait Hio Hu.
    destruct (sem_wait_full_frame _ _ Hwait) as [Hm' _].
    rewrite Hm in Hm'. split.
    + cbn. unfold retailer_critical, pthread_mutex_lock. rewrite Hm'. cbn.
      replace ((in_ (lanes w) =? out (lanes w))
               && (urgent_count (lanes w) =? 0)) with true by lia.
      by rewrite unlock_after_lock.
    + cbn. by rewrite (sem_post_after_wait_full _ _ Hwait).
Qed.

Lemma underflow_and_retry_witness :
  let w0 := mkWorld init_store 9 1 false 1 4 1 1 1 1 [] in
  let w := mkWorld init_store 9 0 false 1 4 1 1 1 1 [] in
  extract_product init_store = (-1, Some Buffer_underflow, init_store)
  /\ retailer_step R_crit w = Some (R_repost, w)
  /\ retailer_step R_repost w = Some (R_check, w0).
Proof.
  intros w0 w.
  pose proof underflow_and_retry as (_ & H2 & H3).
  split.
  - apply H2; reflexivity.
  - apply (H3 w0 w); reflexivity.
Defined.

(** ** Shutdown *)

Lemma for_upto_post_empty (n : Z) (w : world) :
  for_upto n sem_post_empty w = set_empty (empty w + Z.max 0 n) w.
Proof.
  unfold for_upto. replace (Z.max 0 n) with (Z.of_nat (Z.to_nat n)) by lia.
  induction (Z.to_nat n) as [|k IH].
  - destruct w. unfold set_empty. cbn. f_equal. lia.
  - rewrite Nat.iter_succ, IH. unfold sem_post_empty, set_empty. cbn.
    f_equal. lia.
Qed.

Lemma for_upto_post_full (n : Z) (w : world) :
  for_upto n sem_post_full w = set_full (full w + Z.max 0 n) w.
Proof.
  unfold for_upto. replace (Z.max 0 n) with (Z.of_nat (Z.to_nat n)) by lia.
  induction (Z.to_nat n) as [|k IH].
  - destruct w. unfold set_full. cbn. f_equal. lia.
  - rewrite Nat.iter_succ, IH. unfold sem_post_full, set_full. cbn.
    f_equal. lia.
Qed.

(** The posts of the handler, counted one by one. *)
Lemma for_upto_count (n : nat) (body : world -> world) (w : world) :
  for_upto (Z.of_nat n) body w = Nat.iter n body w.
Proof. unfold for_upto. by rewrite Nat2Z.id. Qed.

Lemma console_handle_sigint_posts (w : Console.world) :
  Console.handle_sigint w
  = Console.mkWorld (Console.lanes w)
      (Console.empty w + Z.max 0 (Console.NUM_PRODUCERS w))
      (Console.full w + Z.max 0 (Console.NUM_CONSUMERS w))
      1 (Console.total_produced w) (Console.total_consumed w)
      (Console.NUM_PRODUCERS w) (Console.NUM_CONSUMERS w) (Console.errors w).
Proof.
  unfold Console.handle_sigint. cbn [Console.NUM_PRODUCERS].
  assert (He : forall n (v : Console.world),
             Nat.iter n Console.sem_post_empty v
             = Console.mkWorld (Console.lanes v)
                 (Console.empty v + Z.of_nat n) (Console.full v)
                 (Console.stop_simulation v) (Console.total_produced v)
                 (Console.total_consumed v) (Console.NUM_PRODUCERS v)
                 (Console.NUM_CONSUMERS v) (Console.errors v)).
  { induction n as [|n IH]; intros v.
    - destruct v. cbn. f_equal. lia.
    - rewrite Nat.iter_succ, IH. unfold Console.sem_post_empty. cbn.
      f_equal. lia. }
  assert (Hf : forall n (v : Console.world),
             Nat.iter n Console.sem_post_full v
             = Console.mkWorld (Console.lanes v)
                 (Console.empty v) (Console.full v + Z.of_nat n)
                 (Console.stop_simulation v) (Console.total_produced v)
                 (Console.total_consumed v) (Console.NUM_PRODUCERS v)
                 (Console.NUM_CONSUMERS v) (Console.errors v)).
  { induction n as [|n IH]; intros v.
    - destruct v. cbn. f_equal. lia.
    - rewrite Nat.iter_succ, IH. unfold Console.sem_post_full. cbn.
      f_equal. lia. }
  rewrite He. cbn [Console.NUM_CONSUMERS]. rewrite Hf. cbn. f_equal; lia.
Qed.

(** C8.  [sigint_handler] takes the mutex (it cannot proceed while the
    mutex is held), writes [0] to [simulation_count] while holding it,
    releases it, and then runs [sem_post(&empty)] once per configured
    supplier and [sem_post(&full)] once per configured retailer; nothing
    else changes but [simulation_running], which it clears first.  Writing
    [0] to the counter twice is the same as writing it once.  The handler
    of the console variant, which has no counter, posts the same tokens. *)
Theorem sigint_handler_shutdown :
  (forall w, mutex w = true -> sigint_handler w = None)
  /\ (forall w, mutex w = false ->
        exists w1,
          pthread_mutex_lock (set_simulation_running 0 w) = Some w1
          /\ mutex w1 = true
          /\ sigint_handler w
             = Some (for_upto (NUM_CONSUMERS w) sem_post_full
                       (for_upto (NUM_PRODUCERS w) sem_post_empty
                          (pthread_mutex_unlock
                             (set_simulation_count 0 w1)))))
  /\ (forall w np nc, mutex w = false ->
        NUM_PRODUCERS w = Z.of_nat np -> NUM_CONSUMERS w = Z.of_nat nc ->
        sigint_handler w
        = Some (Nat.iter nc sem_post_full
                  (Nat.iter np sem_post_empty
                     (set_simulation_count 0 (set_simulation_running 0 w)))))
  /\ (forall w, mutex w = false ->
        sigint_handler w
        = Some (mkWorld (lanes w)
                        (empty w + Z.max 0 (NUM_PRODUCERS w))
                        (full w + Z.max 0 (NUM_CONSUMERS w))
                        false 0 0 (total_produced w) (total_consumed w)
                        (NUM_PRODUCERS w) (NUM_CONSUMERS w) (errors w)))
  /\ (forall w,
        set_simulation_count 0 (set_simulation_count 0 w)
        = set_simulation_count 0 w)
  /\ (forall w : Console.world,
        Console.empty (Console.handle_sigint w)
        = Console.empty w + Z.max 0 (Console.NUM_PRODUCERS w)
        /\ Console.full (Console.handle_sigint w)
           = Console.full w + Z.max 0 (Console.NUM_CONSUMERS w)
        /\ Console.stop_simulation (Console.handle_sigint w) = 1).
Proof.
  split_and!; [| | | | |intros w; by rewrite console_handle_sigint_posts].
  - intros w Hm. unfold sigint_handler, pthread_mutex_lock. cbn.
    by rewrite Hm.
  - intros w Hm. exists (set_mutex true (set_simulation_running 0 w)).
    unfold sigint_handler, pthread_mutex_lock.
    cbn [mutex set_simulation_running]. rewrite Hm.
    split_and!; [done..|]. cbn [mbind option_bind].
    by rewrite !for_upto_post_empty.
  - intros w np nc Hm Hnp Hnc.
    assert (Hw : pthread_mutex_unlock
                   (set_simulation_count 0
                      (set_mutex true (set_simulation_running 0 w)))
                 = set_simulation_count 0 (set_simulation_running 0 w)).
    { destruct w. cbn in *. by subst. }
    unfold sigint_handler, pthread_mutex_lock.
    cbn [mutex set_simulation_running]. rewrite Hm.
    cbn [mbind option_bind]. rewrite Hw.
    replace (NUM_PRODUCERS
               (set_simulation_count 0 (set_simulation_running 0 w)))
      with (Z.of_nat np) by done.
    rewrite for_upto_count.
    replace (NUM_CONSUMERS
               (Nat.iter np sem_post_empty
                  (set_simulation_count 0 (set_simulation_running 0 w))))
      with (Z.of_nat nc).
    { by rewrite for_upto_count. }
    rewrite <- for_upto_count, for_upto_post_empty. done.
  - intros w Hm. unfold sigint_handler, pthread_mutex_lock. cbn. rewrite Hm.
    cbn. rewrite for_upto_post_empty. cbn. by rewrite for_upto_post_full.
  - done.
Qed.

Lemma sigint_handler_shutdown_witness :
  let w := mkWorld init_store 0 0 false 1 7 12 2 3 2 [] in
  sigint_handler w = Some (mkWorld init_store 3 2 false 0 0 12 2 3 2 [])
  /\ sigint_handler (set_mutex true w) = None.
Proof.
  intros w.
  pose proof sigint_handler_shutdown as (H1 & _ & _ & H4 & _).
  split.
  - apply (H4 w). reflexivity.
  - apply H1. reflexivity.
Defined.

(** ** Occupancy under the store operations *)

Lemma normal_count_range (s : store) :
  store_wf s -> 0 <= normal_count s <= BUFFER_SIZE - 1.
Proof.
  intros []. rewrite normal_count_distance by done.
  unfold BUFFER_SIZE in *. destruct (out s <=? in_ s) eqn:E; lia.
Qed.

Lemma stock_add_product (item priority : Z) (s : store) :
  store_wf s ->
  stock (add_product item priority s).2
  = match (add_product item priority s).1 with
    | None => stock s + 1
    | Some _ => stock s
    end.
Proof.
  intros []. unfold add_product, stock.
  destruct (Z.rem (in_ s + 1) BUFFER_SIZE =? out s) eqn:Efull; [done|].
  apply Z.eqb_neq in Efull.
  destruct (priority =? 0); cbn [negb fst snd].
  - rewrite !normal_count_distance; cbn; auto using rem_cursor.
    unfold BUFFER_SIZE in *. rewrite rem_wrap in * by lia.
    destruct (in_ s + 1 <? 10) eqn:E1; destruct (out s <=? in_ s) eqn:E2;
      try lia.
    + replace (out s <=? in_ s + 1) with true by lia. lia.
    + replace (out s <=? in_ s + 1) with false by lia. lia.
    + replace (out s <=? in_ s + 1 - 10) with false by lia. lia.
  - unfold normal_count. cbn. lia.
Qed.

Lemma stock_extract_product (s : store) :
  store_wf s ->
  stock (extract_product s).2
  = match (extract_product s).1.2 with
    | None => stock s - 1
    | Some _ => stock s
    end.
Proof.
  intros []. unfold extract_product, stock.
  destruct ((in_ s =? out s) && (urgent_count s =? 0)) eqn:Eempty; [done|].
  destruct (0 <? urgent_count s) eqn:Eu; cbn [fst snd].
  - unfold normal_count. cbn. lia.
  - assert (in_ s <> out s) by lia.
    rewrite !normal_count_distance; cbn; auto using rem_cursor.
    unfold BUFFER_SIZE in *. rewrite rem_wrap by lia.
    destruct (out s + 1 <? 10) eqn:E1; destruct (out s <=? in_ s) eqn:E2;
      try lia.
    + replace (out s + 1 <=? in_ s) with true by lia. lia.
    + replace (out s + 1 <=? in_ s) with false by lia. lia.
    + replace (out s + 1 - 10 <=? in_ s) with true by lia. lia.
Qed.

(** ** Token accounting *)

Lemma total_cons {A} (f : A -> Z) (a : A) (l : list A) :
  total f (a :: l) = f a + total f l.
Proof. done. Qed.

Lemma total_insert {A} (f : A -> Z) (l : list A) (i : nat) (x y : A) :
  l !! i = Some x -> total f (<[i := y]> l) = total f l - f x + f y.
Proof.
  revert i. induction l as [|a l IH]; intros [|i] Hx; try done.
  - injection Hx as ->. change (<[0%nat := y]> (x :: l)) with (y :: l).
    rewrite !total_cons. lia.
  - change (<[S i := y]> (a :: l)) with (a :: <[i := y]> l).
    rewrite !total_cons, (IH i Hx). lia.
Qed.

Lemma total_replicate_zero {A} (f : A -> Z) (n : nat) (x : A) :
  f x = 0 -> total f (replicate n x) = 0.
Proof.
  intros Hx. induction n as [|n IH]; [done|].
  change (replicate (S n) x) with (x :: replicate n x).
  rewrite total_cons. lia.
Qed.

Lemma total_le {A} (f g : A -> Z) (l : list A) :
  (forall a, g a <= f a) -> total g l <= total f l.
Proof.
  intros Hle. induction l as [|b l IHl]; [done|].
  rewrite !total_cons. specialize (Hle b). lia.
Qed.

Lemma total_lookup_le {A} (f g : A -> Z) (l : list A) (i : nat) (x : A) :
  (forall a, g a <= f a) -> l !! i = Some x ->
  total g l + (f x - g x) <= total f l.
Proof.
  intros Hle. revert i. induction l as [|a l IH]; intros [|i] Hx; try done.
  - injection Hx as ->. rewrite !total_cons.
    pose proof (total_le f g l Hle). lia.
  - rewrite !total_cons. specialize (IH i Hx). specialize (Hle a). lia.
Qed.

Lemma supplier_filled_le_holds (pc : supplier_pc) :
  supplier_filled pc <= supplier_holds pc.
Proof. destruct pc; cbn; lia. Qed.

Lemma retailer_filled_le_holds (pc : retailer_pc) :
  retailer_filled pc <= retailer_holds pc.
Proof. destruct pc; cbn; lia. Qed.

(** ** What each piece of a thread does to the globals *)

Lemma supplier_step_spec (pc pc' : supplier_pc) (r1 r2 : Z) (w w' : world) :
  mutex w = false ->
  supplier_step pc r1 r2 w = Some (pc', w') ->
  mutex w' = false
  /\ match pc with
     | S_check =>
         w' = w /\ supplier_holds pc' = 0 /\ supplier_filled pc' = 0
     | S_wait item priority =>
         pc' = S_crit item priority /\ lanes w' = lanes w
         /\ 0 < empty w /\ empty w' = empty w - 1 /\ full w' = full w
     | S_crit item priority =>
         pc' = S_post
         /\ lanes w' = (add_product item priority (lanes w)).2
         /\ empty w' = empty w /\ full w' = full w
     | S_post =>
         pc' = S_check /\ lanes w' = lanes w
         /\ empty w' = empty w /\ full w' = full w + 1
     | S_exit => False
     end.
Proof.
  intros Hm. destruct pc as [|item priority|item priority| |]; cbn.
  - unfold pthread_mutex_lock. rewrite Hm. cbn.
    rewrite !unlock_after_lock by done.
    destruct (simulation_count w <=? 0); by intros [= <- <-].
  - unfold sem_wait_empty. destruct (0 <? empty w) eqn:E; [|done].
    cbn. intros [= <- <-]. cbn. split_and!; try done. lia.
  - unfold supplier_critical, pthread_mutex_lock. rewrite Hm. cbn.
    destruct (add_product item priority (lanes w)) as [e s'].
    cbn. intros [= <- <-]. by destruct e.
  - by intros [= <- <-].
  - done.
Qed.

Lemma retailer_step_spec (pc pc' : retailer_pc) (w w' : world) :
  mutex w = false ->
  retailer_step pc w = Some (pc', w') ->
  mutex w' = false
  /\ match pc with
     | R_check =>
         lanes w' = lanes w /\ empty w' = empty w /\ full w' = full w
         /\ retailer_holds pc' = 0 /\ retailer_filled pc' = 0
     | R_wait =>
         pc' = R_crit /\ lanes w' = lanes w
         /\ 0 < full w /\ empty w' = empty w /\ full w' = full w - 1
     | R_crit =>
         empty w' = empty w /\ full w' = full w
         /\ ((in_ (lanes w) = out (lanes w) /\ urgent_count (lanes w) = 0
              /\ pc' = R_repost /\ lanes w' = lanes w)
             \/ (~ (in_ (lanes w) = out (lanes w)
                    /\ urgent_count (lanes w) = 0)
                 /\ (pc' = R_repost \/ pc' = R_release)
                 /\ lanes w' = (extract_product (lanes w)).2))
     | R_repost =>
         pc' = R_check /\ lanes w' = lanes w
         /\ empty w' = empty w /\ full w' = full w + 1
     | R_release =>
         pc' = R_check /\ lanes w' = lanes w
         /\ empty w' = empty w + 1 /\ full w' = full w
     | R_exit => False
     end.
Proof.
  intros Hm. destruct pc; cbn.
  - unfold pthread_mutex_lock. rewrite Hm. cbn.
    destruct (simulation_count w <=? 0); by intros [= <- <-].
  - unfold sem_wait_full. destruct (0 <? full w) eqn:E; [|done].
    cbn. intros [= <- <-]. cbn. split_and!; try done. lia.
  - unfold retailer_critical, pthread_mutex_lock. rewrite Hm. cbn.
    destruct ((in_ (lanes w) =? out (lanes w))
              && (urgent_count (lanes w) =? 0)) eqn:Eempty.
    + intros [= <- <-]. cbn. split_and!; try done. left. split_and!; try done; lia.
    + destruct (extract_product (lanes w)) as [[item e] s'].
      destruct (item =? -1); intros [= <- <-]; destruct e; cbn;
        (split_and!; try done; right; split_and!; try done; try lia; auto).
  - by intros [= <- <-].
  - by intros [= <- <-].
  - done.
Qed.

(** ** The gate invariant *)

Lemma gate_inv_init (np nc count : Z) : gate_inv (init_system np nc count).
Proof.
  split; cbn; try done; try apply init_store_wf.
  - by rewrite !total_replicate_zero.
  - by rewrite !total_replicate_zero.
Qed.

(** A thread about to insert holds a token that no item stands for yet:
    the store is short of its capacity. *)
Lemma stock_below_capacity (sys : system) (i : nat) (item priority : Z) :
  gate_inv sys -> suppliers sys !! i = Some (S_crit item priority) ->
  stock (lanes (globals sys)) < BUFFER_SIZE.
Proof.
  intros [] Hi.
  pose proof (total_lookup_le supplier_holds supplier_filled _ _ _
                supplier_filled_le_holds Hi) as Hs.
  pose proof (total_le retailer_holds retailer_filled (retailers sys)
                retailer_filled_le_holds) as Hr.
  cbn in Hs. lia.
Qed.

Lemma gate_inv_step (ev : event) (sys sys' : system) :
  gate_inv sys -> step ev sys = Some sys' -> gate_inv sys'.
Proof.
  intros Hinv Hstep. pose proof Hinv as [Hm Hwf He Hf Htok Hstock].
  destruct ev as [i r1 r2|j]; cbn in Hstep.
  - destruct (suppliers sys !! i) as [pc|] eqn:Hpc; [|done]. cbn in Hstep.
    destruct (supplier_step pc r1 r2 (globals sys)) as [[pc' w']|] eqn:Hs;
      [|done].
    cbn in Hstep. injection Hstep as <-.
    destruct (supplier_step_spec _ _ _ _ _ _ Hm Hs) as [Hm' Hspec].
    pose proof (total_insert supplier_holds _ _ _ pc' Hpc) as Hh.
    pose proof (total_insert supplier_filled _ _ _ pc' Hpc) as Hfl.
    destruct pc as [|item priority|item priority| |]; cbn in Hspec.
    + destruct Hspec as (-> & Hh0 & Hf0).
      split; cbn; try done; cbn in Hh, Hfl; lia.
    + destruct Hspec as (-> & Hl & Hpos & Hemp & Hfull).
      split; cbn; rewrite ?Hl; try done; cbn in Hh, Hfl; lia.
    + destruct Hspec as (-> & Hl & Hemp & Hfull).
      pose proof (stock_below_capacity _ _ _ _ Hinv Hpc) as Hroom.
      pose proof (normal_count_range _ Hwf) as Hn.
      pose proof (stock_add_product item priority _ Hwf) as Hst.
      split; cbn; rewrite ?Hl; try done; cbn in Hh, Hfl; try lia.
      * apply add_product_wf; [done|]. unfold stock in Hroom. lia.
      * destruct (add_product item priority (lanes (globals sys))).1; lia.
    + destruct Hspec as (-> & Hl & Hemp & Hfull).
      split; cbn; rewrite ?Hl; try done; cbn in Hh, Hfl; lia.
    + done.
  - destruct (retailers sys !! j) as [pc|] eqn:Hpc; [|done]. cbn in Hstep.
    destruct (retailer_step pc (globals sys)) as [[pc' w']|] eqn:Hs; [|done].
    cbn in Hstep. injection Hstep as <-.
    destruct (retailer_step_spec _ _ _ _ Hm Hs) as [Hm' Hspec].
    pose proof (total_insert retailer_holds _ _ _ pc' Hpc) as Hh.
    pose proof (total_insert retailer_filled _ _ _ pc' Hpc) as Hfl.
    destruct pc; cbn in Hspec.
    + destruct Hspec as (Hl & Hemp & Hfull & Hh0 & Hf0).
      split; cbn; rewrite ?Hl; try done; cbn in Hh, Hfl; lia.
    + destruct Hspec as (-> & Hl & Hpos & Hemp & Hfull).
      split; cbn; rewrite ?Hl; try done; cbn in Hh, Hfl; lia.
    + destruct Hspec as (Hemp & Hfull & Hcase).
      destruct Hcase as [(Hio & Hu & -> & Hl)|(Hne & Hpc' & Hl)].
      * split; cbn; rewrite ?Hl; try done; cbn in Hh, Hfl; lia.
      * pose proof (stock_extract_product _ Hwf) as Hst.
        assert (Hnone : (extract_product (lanes (globals sys))).1.2 = None).
        { unfold extract_product.
          replace ((in_ (lanes (globals sys)) =? out (lanes (globals sys)))
                   && (urgent_count (lanes (globals sys)) =? 0))
            with false by lia.
          by destruct (0 <? urgent_count (lanes (globals sys))). }
        rewrite Hnone in Hst.
        split; cbn; rewrite ?Hl; try done; try (by apply extract_product_wf);
          destruct Hpc' as [-> | ->]; cbn in Hh, Hfl; lia.
    + destruct Hspec as (-> & Hl & Hemp & Hfull).
      split; cbn; rewrite ?Hl; try done; cbn in Hh, Hfl; lia.
    + destruct Hspec as (-> & Hl & Hemp & Hfull).
      split; cbn; rewrite ?Hl; try done; cbn in Hh, Hfl; lia.
    + done.
Qed.

Lemma gate_inv_run (evs : list event) (sys sys' : system) :
  gate_inv sys -> run evs sys = Some sys' -> gate_inv sys'.
Proof.
  revert sys. induction evs as [|ev evs IH]; intros sys Hinv Hrun.
  - cbn in Hrun. by injection Hrun as <-.
  - cbn in Hrun. destruct (step ev sys) as [sys1|] eqn:Hstep; [|done].
    cbn in Hrun. eauto using gate_inv_step.
Qed.

Lemma gate_inv_bounds (sys : system) :
  gate_inv sys ->
  0 <= urgent_count (lanes (globals sys)) <= BUFFER_SIZE
  /\ 0 <= normal_count (lanes (globals sys)) <= BUFFER_SIZE - 1
  /\ stock (lanes (globals sys)) <= BUFFER_SIZE.
Proof.
  intros [Hm Hwf He Hf Htok Hstock].
  pose proof (normal_count_range _ Hwf).
  pose proof (total_le supplier_holds supplier_filled (suppliers sys)
                supplier_filled_le_holds).
  pose proof (total_le retailer_holds retailer_filled (retailers sys)
                retailer_filled_le_holds).
  destruct Hwf. split_and!; try done; lia.
Qed.

(** C6.  In every state a run of the threads reaches from the start of the
    program (ten free slots, no filled slot, every insert behind
    [sem_wait(&empty)] and every extraction behind [sem_wait(&full)]), the
    urgent count is between [0] and the capacity, the normal occupancy
    derived from the cursors is between [0] and the capacity minus one, the
    two together do not exceed the capacity, and the tokens in the two
    semaphores and in the hands of the threads add up to the capacity. *)
Theorem gate_bounds_occupancy
    (np nc count : Z) (evs : list event) (sys : system) :
  run evs (init_system np nc count) = Some sys ->
  0 <= occupancy Urgent_lane (lanes (globals sys)) <= BUFFER_SIZE
  /\ 0 <= occupancy Normal_lane (lanes (globals sys)) <= BUFFER_SIZE - 1
  /\ occupancy Normal_lane (lanes (globals sys))
     + occupancy Urgent_lane (lanes (globals sys)) <= BUFFER_SIZE
  /\ empty (globals sys) + full (globals sys)
     + total supplier_holds (suppliers sys)
     + total retailer_holds (retailers sys) = BUFFER_SIZE.
Proof.
  intros Hrun.
  pose proof (gate_inv_run _ _ _ (gate_inv_init np nc count) Hrun) as Hinv.
  destruct (gate_inv_bounds _ Hinv) as (Hu & Hn & Hs).
  destruct Hinv. unfold stock in Hs. cbn [occupancy]. split_and!; lia.
Qed.

Lemma gate_bounds_occupancy_witness :
  exists sys,
    run (replicate 4 (Supplier 0 17 1) ++ replicate 5 (Retailer 0)
         ++ replicate 4 (Supplier 1 23 0))
        (init_system 2 1 5) = Some sys
    /\ 0 <= occupancy Urgent_lane (lanes (globals sys)) <= BUFFER_SIZE
    /\ 0 <= occupancy Normal_lane (lanes (globals sys)) <= BUFFER_SIZE - 1.
Proof.
  eexists. split; [vm_compute; reflexivity|].
  match goal with
  | |- context [globals ?s] =>
      assert (Hrun : run (replicate 4 (Supplier 0 17 1)
                          ++ replicate 5 (Retailer 0)
                          ++ replicate 4 (Supplier 1 23 0))
                         (init_system 2 1 5) = Some s)
        by (vm_compute; reflexivity)
  end.
  destruct (gate_bounds_occupancy _ _ _ _ _ Hrun) as (Hu & Hn & _).
  split; assumption.
Defined.

(** ** First in, first out *)

Lemma inserted_app (l : lane) (h1 h2 : list obs) :
  inserted l (h1 ++ h2) = inserted l h1 ++ inserted l h2.
Proof.
  induction h1 as [|[l' x|l' x] h1 IH]; cbn; [done| |done].
  destruct (same_lane l' l); cbn; by rewrite IH.
Qed.

Lemma served_app (l : lane) (h1 h2 : list obs) :
  served l (h1 ++ h2) = served l h1 ++ served l h2.
Proof.
  induction h1 as [|[l' x|l' x] h1 IH]; cbn; [done|done|].
  destruct (same_lane l' l); cbn; by rewrite IH.
Qed.

(** What [add_product] reports is what it does to the two queues. *)
Lemma insertion_queues (item priority : Z) (s : store) (l : lane) :
  store_wf s -> stock s < BUFFER_SIZE ->
  items l s ++ inserted l (insertion item priority s)
  = items l (add_product item priority s).2.
Proof.
  intros Hwf Hroom. unfold insertion.
  destruct (add_product item priority s) as [e s'] eqn:Eadd.
  assert (He : (add_product item priority s).1 = e) by by rewrite Eadd.
  assert (Hs : (add_product item priority s).2 = s') by by rewrite Eadd.
  destruct e as [e|]; cbn [inserted snd].
  - rewrite app_nil_r. rewrite <- Hs.
    by rewrite (add_product_failure_noop _ _ _ _ He).
  - pose proof (normal_count_range _ Hwf) as Hn. unfold stock in Hroom.
    unfold lane_of. destruct (priority =? 0) eqn:Ep.
    + apply Z.eqb_eq in Ep.
      destruct (add_product_normal_items item priority s Hwf Ep He)
        as [Hnorm Hurg].
      rewrite Hs in Hnorm, Hurg. by destruct l; cbn [same_lane];
        rewrite ?app_nil_r.
    + apply Z.eqb_neq in Ep.
      destruct (add_product_urgent_items item priority s Hwf Ep) as [Hurg Hnorm];
        [lia|done|].
      rewrite Hs in Hnorm, Hurg. by destruct l; cbn [same_lane];
        rewrite ?app_nil_r.
Qed.

(** What the retailer takes out is the head of the queue served. *)
Lemma extraction_queues (s : store) (l : lane) :
  store_wf s -> ~ (in_ s = out s /\ urgent_count s = 0) ->
  items l s = served l (extraction s) ++ items l (extract_product s).2.
Proof.
  intros Hwf Hne. unfold extraction.
  replace ((in_ s =? out s) && (urgent_count s =? 0)) with false by lia.
  destruct (0 <? urgent_count s) eqn:Eu.
  - apply Z.ltb_lt in Eu.
    destruct (extract_product_urgent_items s Hwf Eu) as [Hurg Hnorm].
    by destruct l; cbn [served same_lane app].
  - assert (Hu : urgent_count s = 0) by (destruct Hwf; lia).
    assert (Hio : in_ s <> out s) by lia.
    destruct (extract_product_normal_items s Hwf Hu Hio) as [Hnorm Hurg].
    by destruct l; cbn [served same_lane app].
Qed.

Lemma step_queues (ev : event) (sys sys' : system) (l : lane) :
  gate_inv sys -> step ev sys = Some sys' ->
  items l (lanes (globals sys)) ++ inserted l (observe ev sys)
  = served l (observe ev sys) ++ items l (lanes (globals sys')).
Proof.
  intros Hinv Hstep. pose proof Hinv as [Hm Hwf He Hf Htok Hstock].
  destruct ev as [i r1 r2|j]; cbn in Hstep; cbn [observe].
  - destruct (suppliers sys !! i) as [pc|] eqn:Hpc; [|done]. cbn in Hstep.
    destruct (supplier_step pc r1 r2 (globals sys)) as [[pc' w']|] eqn:Hs;
      [|done].
    cbn in Hstep. injection Hstep as <-. cbn [globals].
    destruct (supplier_step_spec _ _ _ _ _ _ Hm Hs) as [_ Hspec].
    destruct pc as [|item priority|item priority| |]; cbn in Hspec.
    + destruct Hspec as (-> & _). cbn. by rewrite app_nil_r.
    + destruct Hspec as (_ & -> & _). cbn. by rewrite app_nil_r.
    + destruct Hspec as (_ & -> & _).
      rewrite insertion_queues; [|done|by eapply stock_below_capacity].
      unfold insertion.
      by destruct (add_product item priority (lanes (globals sys))) as [[e|] ?].
    + destruct Hspec as (_ & -> & _). cbn. by rewrite app_nil_r.
    + done.
  - destruct (retailers sys !! j) as [pc|] eqn:Hpc; [|done]. cbn in Hstep.
    destruct (retailer_step pc (globals sys)) as [[pc' w']|] eqn:Hs; [|done].
    cbn in Hstep. injection Hstep as <-. cbn [globals].
    destruct (retailer_step_spec _ _ _ _ Hm Hs) as [_ Hspec].
    destruct pc; cbn in Hspec.
    + destruct Hspec as (-> & _). cbn. by rewrite app_nil_r.
    + destruct Hspec as (_ & -> & _). cbn. by rewrite app_nil_r.
    + destruct Hspec as (_ & _ & [(Hio & Hu & _ & ->)|(Hne & _ & ->)]).
      * unfold extraction.
        replace ((in_ (lanes (globals sys)) =? out (lanes (globals sys)))
                 && (urgent_count (lanes (globals sys)) =? 0))
          with true by lia.
        cbn. by rewrite app_nil_r.
      * rewrite <- extraction_queues by done.
        unfold extraction.
        replace ((in_ (lanes (globals sys)) =? out (lanes (globals sys)))
                 && (urgent_count (lanes (globals sys)) =? 0))
          with false by lia.
        cbn. by rewrite app_nil_r.
    + destruct Hspec as (_ & -> & _). cbn. by rewrite app_nil_r.
    + destruct Hspec as (_ & -> & _). cbn. by rewrite app_nil_r.
    + done.
Qed.

Lemma run_queues (evs : list event) (sys sys' : system) (l : lane) :
  gate_inv sys -> run evs sys = Some sys' ->
  items l (lanes (globals sys)) ++ inserted l (history evs sys)
  = served l (history evs sys) ++ items l (lanes (globals sys')).
Proof.
  revert sys. induction evs as [|ev evs IH]; intros sys Hinv Hrun.
  - cbn in Hrun. injection Hrun as <-. cbn. by rewrite app_nil_r.
  - cbn in Hrun. cbn [history].
    destruct (step ev sys) as [sys1|] eqn:Hstep; [|done]. cbn in Hrun.
    rewrite inserted_app, served_app, app_assoc.
    rewrite (step_queues _ _ _ _ Hinv Hstep), <- !app_assoc. f_equal.
    apply IH; [by eapply gate_inv_step|done].
Qed.

(** X19.  Along every run of the threads from the start of the program
    (no signal delivered), and for each lane, the items inserted into the
    lane are, in order, the items served from it followed by the items it
    still holds: a lane gives its items back in the order it received them.
    In particular, after three urgent and then two normal inserts into the
    initial store, three extractions return the three urgent items in the
    order of their insertion and leave the two normal ones. *)
Theorem fifo_per_lane :
  (forall np nc count evs sys l,
     run evs (init_system np nc count) = Some sys ->
     inserted l (history evs (init_system np nc count))
     = served l (history evs (init_system np nc count))
       ++ items l (lanes (globals sys)))
  /\ (forall a b c d e,
        let s5 :=
          (add_product e 0
             (add_product d 0
                (add_product c 1
                   (add_product b 1
                      (add_product a 1 init_store).2).2).2).2).2 in
        let x1 := extract_product s5 in
        let x2 := extract_product x1.2 in
        let x3 := extract_product x2.2 in
        items Urgent_lane s5 = [a; b; c] /\ items Normal_lane s5 = [d; e]
        /\ x1.1 = (a, None) /\ x2.1 = (b, None) /\ x3.1 = (c, None)
        /\ items Urgent_lane x3.2 = [] /\ items Normal_lane x3.2 = [d; e]).
Proof.
  split.
  - intros np nc count evs sys l Hrun.
    pose proof (run_queues evs _ _ l (gate_inv_init np nc count) Hrun) as Hq.
    rewrite <- Hq. by destruct l.
  - intros a b c d e. by vm_compute.
Qed.

Lemma fifo_per_lane_witness :
  let evs := replicate 4 (Supplier 0 11 1) ++ replicate 4 (Supplier 0 12 1)
             ++ replicate 4 (Supplier 0 20 0) ++ replicate 4 (Supplier 0 13 1)
             ++ replicate 10 (Retailer 0) in
  exists sys,
    run evs (init_system 1 1 9) = Some sys
    /\ inserted Urgent_lane (history evs (init_system 1 1 9)) = [11; 12; 13]
    /\ served Urgent_lane (history evs (init_system 1 1 9)) = [11; 12]
    /\ inserted Urgent_lane (history evs (init_system 1 1 9))
       = served Urgent_lane (history evs (init_system 1 1 9))
         ++ items Urgent_lane (lanes (globals sys)).
Proof.
  intros evs. eexists. split; [vm_compute; reflexivity|].
  split; [vm_compute; reflexivity|]. split; [vm_compute; reflexivity|].
  apply (proj1 fifo_per_lane 1 1 9 evs). vm_compute. reflexivity.
Defined.

(** ** Statistics of dropped items *)

(** C3.  The locked region of [supplier] calls [update_statistics(1, 0)]
    after [add_product] whatever [add_product] did: when the insert is
    refused with "Buffer overflow" the lanes are unchanged and
    [total_produced] has still grown by one (the console variant does the
    same).  One supplier that draws ten normal items while no retailer runs
    ends with [total_produced = 10] and nine items in the store. *)
Theorem supplier_counts_dropped_item :
  (forall item priority w,
     mutex w = false ->
     (add_product item priority (lanes w)).1 = Some Buffer_overflow ->
     exists w',
       supplier_critical item priority w = Some w'
       /\ lanes w' = lanes w
       /\ errors w' = Buffer_overflow :: errors w
       /\ total_produced w' = total_produced w + 1)
  /\ (forall item priority (w : Console.world),
        (add_product item priority (Console.lanes w)).1
        = Some Buffer_overflow ->
        Console.lanes (Console.supplier_critical item priority w)
        = Console.lanes w
        /\ Console.total_produced (Console.supplier_critical item priority w)
           = Console.total_produced w + 1)
  /\ (exists sys,
        run (concat (replicate 10 (replicate 4 (Supplier 0 17 0))))
            (init_system 1 1 50) = Some sys
        /\ total_produced (globals sys) = 10
        /\ stock (lanes (globals sys)) = 9
        /\ items Normal_lane (lanes (globals sys)) = replicate 9 17
        /\ items Urgent_lane (lanes (globals sys)) = []
        /\ errors (globals sys) = [Buffer_overflow]).
Proof.
  split_and!.
  - intros item priority w Hm Hover.
    unfold supplier_critical, pthread_mutex_lock. rewrite Hm. cbn.
    pose proof (add_product_failure_noop _ _ _ _ Hover) as Hnoop.
    destruct (add_product item priority (lanes w)) as [e s'].
    cbn in Hover, Hnoop. subst. eexists. by split_and!.
  - intros item priority w Hover. unfold Console.supplier_critical.
    pose proof (add_product_failure_noop _ _ _ _ Hover) as Hnoop.
    destruct (add_product item priority (Console.lanes w)) as [e s'].
    cbn in Hover, Hnoop. by subst.
  - eexists. split; [vm_compute; reflexivity|]. by vm_compute.
Qed.

Lemma supplier_counts_dropped_item_witness :
  let w := mkWorld (mkStore [1; 2; 3; 4; 5; 6; 7; 8; 9; 0] 9 0
                            (replicate 10 0) 0 0 0)
                   0 9 false 1 50 9 0 1 1 [] in
  exists w',
    supplier_critical 42 0 w = Some w'
    /\ lanes w' = lanes w
    /\ errors w' = Buffer_overflow :: errors w
    /\ total_produced w' = total_produced w + 1.
Proof.
  intros w. apply (proj1 supplier_counts_dropped_item 42 0 w); reflexivity.
Defined.

Lemma add_product_guards_normal_lane_only_witness :
  let s := mkStore [1; 2; 3; 4; 5; 6; 7; 8; 9; 0] 9 0
                   (replicate 10 0) 0 0 0 in
  (add_product 42 1 s).2 = s.
Proof.
  intros s.
  apply (proj1 (proj2 add_product_guards_normal_lane_only) 42 1 s
           Buffer_overflow).
  reflexivity.
Defined.

(** ** Startup configuration *)

Lemma skip_space_length (inp : list ascii) :
  (length (skip_space inp) <= length inp)%nat.
Proof.
  induction inp as [|c inp IH]; cbn; [done|].
  destruct (isspace c); cbn; lia.
Qed.

Lemma scan_digits_length (acc : Z) (inp : list ascii) :
  (length (scan_digits acc inp).2 <= length inp)%nat.
Proof.
  revert acc. induction inp as [|c inp IH]; intros acc; cbn; [done|].
  destruct (digit_of c) as [d|]; cbn; [|lia].
  specialize (IH (10 * acc + d)). lia.
Qed.

Lemma scanf_d_length (inp : list ascii) :
  (length (scanf_d inp).2 <= length inp)%nat.
Proof.
  unfold scanf_d. pose proof (skip_space_length inp) as Hs.
  destruct (skip_space inp) as [|c rest]; cbn [length] in *; [cbn; lia|].
  set (body := if (code c =? 45) || (code c =? 43) then rest else c :: rest).
  assert (Hb : (length body <= S (length rest))%nat).
  { subst body. destruct ((code c =? 45) || (code c =? 43)); cbn; lia. }
  destruct body as [|d body'] eqn:Ebody; [cbn; lia|].
  destruct (digit_of d); [|cbn in *; lia].
  pose proof (scan_digits_length 0 (d :: body')) as Hd.
  destruct (scan_digits 0 (d :: body')) as [n rest'].
  cbn [snd] in Hd.
  destruct ((INT_MIN <=? (if code c =? 45 then - n else n))
            && ((if code c =? 45 then - n else n) <=? INT_MAX));
    cbn [snd]; lia.
Qed.

Lemma discard_line_length (inp rest : list ascii) :
  discard_line inp = Some rest -> (length rest < length inp)%nat.
Proof.
  induction inp as [|c inp IH]; cbn; [done|].
  destruct (code c =? 10); [intros [= ->]; lia|].
  intros H. specialize (IH H). lia.
Qed.





(** * Further properties of the ring store *)

Lemma ring_items_length (buf : list Z) (start count : Z) :
  length (ring_items buf start count) = Z.to_nat count.
Proof. unfold ring_items. by rewrite length_map, length_seq. Qed.

Lemma items_length (l : lane) (s : store) :
  store_wf s -> Z.of_nat (length (items l s)) = occupancy l s.
Proof.
  intros Hwf. pose proof (normal_count_range _ Hwf). destruct Hwf.
  destruct l; cbn; rewrite ring_items_length; lia.
Qed.

Lemma store_empty_items (s : store) :
  store_wf s -> in_ s = out s -> urgent_count s = 0 ->
  items Normal_lane s = [] /\ items Urgent_lane s = [].
Proof.
  intros Hwf Hio Hu. split.
  - apply length_zero_iff_nil. cbn [items]. rewrite ring_items_length.
    rewrite normal_count_distance by (by destruct Hwf).
    rewrite Hio. replace (out s <=? out s) with true by lia. lia.
  - apply length_zero_iff_nil. cbn [items]. rewrite ring_items_length. lia.
Qed.

Lemma add_product_on_empty (item priority : Z) (s : store) :
  store_wf s -> in_ s = out s ->
  (add_product item priority s).1 = None.
Proof.
  intros [] Hio. unfold add_product, BUFFER_SIZE in *.
  rewrite rem_wrap by lia.
  replace ((if in_ s + 1 <? 10 then in_ s + 1 else in_ s + 1 - 10) =? out s)
    with false by (destruct (in_ s + 1 <? 10) eqn:E; lia).
  by destruct (negb (priority =? 0)).
Qed.

(** X1.  An item put into a well-formed store whose two lanes are empty is
    the item the next extraction returns, whatever its priority tag, and
    the two lanes are empty again afterwards. *)
Theorem insert_then_extract_on_empty (item priority : Z) (s : store) :
  store_wf s -> in_ s = out s -> urgent_count s = 0 ->
  (add_product item priority s).1 = None
  /\ (extract_product (add_product item priority s).2).1 = (item, None)
  /\ in_ (extract_product (add_product item priority s).2).2
     = out (extract_product (add_product item priority s).2).2
  /\ urgent_count (extract_product (add_product item priority s).2).2 = 0.
Proof.
  intros Hwf Hio Hu.
  pose proof (add_product_on_empty item priority s Hwf Hio) as Hok.
  split; [done|]. destruct Hwf.
  assert (Huio : urgent_in s = urgent_out s).
  { rewrite wf_urgent_ring0, Hu, Z.add_0_r. unfold BUFFER_SIZE in *.
    apply Z.mod_small. lia. }
  revert Hok. unfold add_product, BUFFER_SIZE in *.
  destruct (Z.rem (in_ s + 1) 10 =? out s) eqn:Efull; [done|]. intros _.
  apply Z.eqb_neq in Efull.
  destruct (priority =? 0); cbn [negb snd]; unfold extract_product; cbn.
  - replace ((Z.rem (in_ s + 1) 10 =? out s) && (urgent_count s =? 0))
      with false by lia.
    replace (0 <? urgent_count s) with false by lia. cbn.
    rewrite <- Hio, rd_wr_same by lia. done.
  - replace ((in_ s =? out s) && (urgent_count s + 1 =? 0))
      with false by lia.
    replace (0 <? urgent_count s + 1) with true by lia. cbn.
    rewrite <- Huio, rd_wr_same by lia. split_and!; try done. lia.
Qed.

Lemma insert_then_extract_on_empty_witness :
  (extract_product (add_product 42 0 init_store).2).1 = (42, None)
  /\ (extract_product (add_product 42 1 init_store).2).1 = (42, None).
Proof.
  split.
  - apply (insert_then_extract_on_empty 42 0 init_store);
      [apply init_store_wf|reflexivity|reflexivity].
  - apply (insert_then_extract_on_empty 42 1 init_store);
      [apply init_store_wf|reflexivity|reflexivity].
Defined.

(** X2.  On a well-formed store with an empty urgent lane and a normal ring
    that is not full, an urgent item inserted now is the very next item
    extracted, however many normal items were waiting before it; the normal
    lane is exactly as it was and the urgent lane is empty again. *)
Theorem urgent_item_overtakes (item priority : Z) (s : store) :
  store_wf s -> urgent_count s = 0 -> has_room Normal_lane s ->
  priority <> 0 ->
  (extract_product (add_product item priority s).2).1 = (item, None)
  /\ lane_state Normal_lane (extract_product (add_product item priority s).2).2
     = lane_state Normal_lane s
  /\ items Normal_lane (extract_product (add_product item priority s).2).2
     = items Normal_lane s
  /\ urgent_count (extract_product (add_product item priority s).2).2 = 0.
Proof.
  intros Hwf Hu Hroom Hp. cbn in Hroom. destruct Hwf.
  assert (Huio : urgent_in s = urgent_out s).
  { rewrite wf_urgent_ring0, Hu, Z.add_0_r. unfold BUFFER_SIZE in *.
    apply Z.mod_small. lia. }
  unfold add_product.
  replace (Z.rem (in_ s + 1) BUFFER_SIZE =? out s) with false by lia.
  replace (priority =? 0) with false by lia. cbn [negb snd].
  unfold extract_product. cbn.
  replace ((in_ s =? out s) && (urgent_count s + 1 =? 0)) with false by lia.
  replace (0 <? urgent_count s + 1) with true by lia. cbn.
  unfold BUFFER_SIZE in *.
  rewrite <- Huio, rd_wr_same by lia. split_and!; try done. lia.
Qed.

Lemma urgent_item_overtakes_witness :
  let s := (add_product 8 0 (add_product 7 0 init_store).2).2 in
  items Normal_lane s = [7; 8]
  /\ (extract_product (add_product 99 1 s).2).1 = (99, None)
  /\ items Normal_lane (extract_product (add_product 99 1 s).2).2 = [7; 8].
Proof.
  intros s. split; [reflexivity|].
  assert (Hwf : store_wf s).
  { apply add_product_wf; [|done]. apply add_product_wf; [|done].
    apply init_store_wf. }
  assert (Hroom : has_room Normal_lane s) by (vm_compute; lia).
  assert (Hp : 1 <> 0) by lia.
  destruct (urgent_item_overtakes 99 1 s Hwf eq_refl Hroom Hp)
    as (H1 & _ & H3 & _).
  split; [exact H1|]. rewrite H3. reflexivity.
Defined.

(** ** Draining the store *)

Lemma drain_app (n m : nat) (s : store) :
  drain (n + m) s
  = ((drain n s).1 ++ (drain m (drain n s).2).1, (drain m (drain n s).2).2).
Proof.
  revert s. induction n as [|n IH]; intros s.
  - cbn. by destruct (drain m s).
  - cbn [Nat.add drain].
    destruct (extract_product s) as [[item e] s1].
    rewrite IH. destruct (drain n s1) as [l1 s2]. cbn.
    by destruct (drain m s2).
Qed.

Lemma drain_urgent (n : nat) (s : store) :
  store_wf s -> urgent_count s = Z.of_nat n ->
  (drain n s).1 = items Urgent_lane s
  /\ store_wf (drain n s).2
  /\ urgent_count (drain n s).2 = 0
  /\ lane_state Normal_lane (drain n s).2 = lane_state Normal_lane s
  /\ items Normal_lane (drain n s).2 = items Normal_lane s.
Proof.
  revert s. induction n as [|n IH]; intros s Hwf Hu.
  - cbn [drain fst snd]. split_and!; try done.
    cbn. unfold ring_items. by rewrite Hu.
  - assert (Hpos : 0 < urgent_count s) by lia.
    destruct (extract_product_urgent_items s Hwf Hpos) as [Hhead Hnorm].
    pose proof (extract_product_wf s Hwf) as Hwf1.
    assert (Hu1 : urgent_count (extract_product s).2 = Z.of_nat n).
    { unfold extract_product.
      replace ((in_ s =? out s) && (urgent_count s =? 0)) with false by lia.
      replace (0 <? urgent_count s) with true by lia. cbn. lia. }
    assert (Hls : lane_state Normal_lane (extract_product s).2
                  = lane_state Normal_lane s).
    { unfold extract_product.
      replace ((in_ s =? out s) && (urgent_count s =? 0)) with false by lia.
      by replace (0 <? urgent_count s) with true by lia. }
    destruct (IH _ Hwf1 Hu1) as (H1 & H2 & H3 & H4 & H5).
    cbn [drain]. destruct (extract_product s) as [[item e] s1].
    cbn [fst snd] in *. destruct (drain n s1) as [rest s2].
    cbn [fst snd] in *. split_and!; try done; congruence.
Qed.

Lemma drain_normal (n : nat) (s : store) :
  store_wf s -> urgent_count s = 0 -> normal_count s = Z.of_nat n ->
  (drain n s).1 = items Normal_lane s
  /\ store_wf (drain n s).2
  /\ urgent_count (drain n s).2 = 0
  /\ in_ (drain n s).2 = out (drain n s).2.
Proof.
  revert s. induction n as [|n IH]; intros s Hwf Hu Hn.
  - cbn [drain fst snd]. split_and!; try done.
    + cbn. unfold ring_items. by rewrite Hn.
    + rewrite normal_count_distance in Hn by (by destruct Hwf).
      destruct Hwf. unfold BUFFER_SIZE in *.
      destruct (out s <=? in_ s) eqn:E; lia.
  - assert (Hne : in_ s <> out s).
    { intros Heq. unfold normal_count in Hn. rewrite Heq in Hn.
      replace (out s - out s + BUFFER_SIZE) with BUFFER_SIZE in Hn by lia.
      rewrite Z.rem_same in Hn by done. lia. }
    destruct (extract_product_normal_items s Hwf Hu Hne) as [Hhead Hurg].
    pose proof (extract_product_wf s Hwf) as Hwf1.
    pose proof (stock_extract_product s Hwf) as Hst.
    assert (Hnone : (extract_product s).1.2 = None
                    /\ urgent_count (extract_product s).2 = 0).
    { unfold extract_product.
      replace ((in_ s =? out s) && (urgent_count s =? 0)) with false by lia.
      by replace (0 <? urgent_count s) with false by lia. }
    destruct Hnone as [Hnone Hu1]. rewrite Hnone in Hst. unfold stock in Hst.
    assert (Hn1 : normal_count (extract_product s).2 = Z.of_nat n) by lia.
    destruct (IH _ Hwf1 Hu1 Hn1) as (H1 & H2 & H3 & H4).
    cbn [drain]. destruct (extract_product s) as [[item e] s1].
    cbn [fst snd] in *. destruct (drain n s1) as [rest s2].
    cbn [fst snd] in *. split_and!; try done; congruence.
Qed.

(** X3.  Extracting from a well-formed store as many times as it holds
    items returns all its urgent items, oldest first, and then all its
    normal items, oldest first; the store is then empty, and one more
    extraction is an underflow. *)
Theorem drain_returns_urgent_then_normal (s : store) :
  store_wf s ->
  (drain (Z.to_nat (stock s)) s).1
  = items Urgent_lane s ++ items Normal_lane s
  /\ in_ (drain (Z.to_nat (stock s)) s).2
     = out (drain (Z.to_nat (stock s)) s).2
  /\ urgent_count (drain (Z.to_nat (stock s)) s).2 = 0
  /\ (extract_product (drain (Z.to_nat (stock s)) s).2).1
     = (-1, Some Buffer_underflow).
Proof.
  intros Hwf. pose proof (normal_count_range _ Hwf) as Hn.
  assert (Hu : 0 <= urgent_count s) by (destruct Hwf; lia).
  unfold stock.
  replace (Z.to_nat (normal_count s + urgent_count s))
    with (Z.to_nat (urgent_count s) + Z.to_nat (normal_count s))%nat by lia.
  rewrite drain_app. cbn [fst snd].
  destruct (drain_urgent (Z.to_nat (urgent_count s)) s Hwf)
    as (H1 & H2 & H3 & H4 & H5); [lia|].
  assert (Hcnt : normal_count (drain (Z.to_nat (urgent_count s)) s).2
                 = normal_count s).
  { cbn in H4. by injection H4. }
  destruct (drain_normal (Z.to_nat (normal_count s))
              (drain (Z.to_nat (urgent_count s)) s).2 H2 H3)
    as (G1 & G2 & G3 & G4); [lia|].
  rewrite H1, G1, H5. split_and!; try done.
  unfold extract_product.
  by replace ((in_ _ =? out _) && (urgent_count _ =? 0)) with true by lia.
Qed.

Lemma drain_returns_urgent_then_normal_witness :
  let s := (add_product 3 1 (add_product 2 0 (add_product 1 0
              init_store).2).2).2 in
  (drain 3 s).1 = [3; 1; 2]
  /\ (drain (Z.to_nat (stock s)) s).1
     = items Urgent_lane s ++ items Normal_lane s.
Proof.
  intros s. split; [reflexivity|].
  apply (drain_returns_urgent_then_normal s).
  repeat (apply add_product_wf; [|done]). apply init_store_wf.
Defined.

(** ** Shape and occupancy *)

(** X4.  The operations keep a well-formed store well-formed: arrays of ten
    cells, the four cursors inside them, an urgent count between zero and
    the capacity that is the distance between the urgent cursors.  A normal
    insert and an extraction need nothing for that; an urgent insert needs
    an urgent count below the capacity, which [add_product] does not test. *)
Theorem operations_keep_store_wf (s : store) :
  store_wf s ->
  (forall item, store_wf (add_product item 0 s).2)
  /\ (forall item priority,
        urgent_count s < BUFFER_SIZE ->
        store_wf (add_product item priority s).2)
  /\ store_wf (extract_product s).2
  /\ (forall item priority,
        priority <> 0 -> urgent_count s = BUFFER_SIZE ->
        has_room Normal_lane s ->
        ~ store_wf (add_product item priority s).2).
Proof.
  intros Hwf. split_and!.
  - intros item. by apply add_product_wf.
  - intros item priority Hroom. by apply add_product_wf.
  - by apply extract_product_wf.
  - intros item priority Hp Hfull Hroom [] . revert wf_urgent_count0.
    cbn in Hroom. unfold add_product.
    replace (Z.rem (in_ s + 1) BUFFER_SIZE =? out s) with false by lia.
    replace (priority =? 0) with false by lia. cbn. lia.
Qed.

Lemma operations_keep_store_wf_witness :
  store_wf (add_product 5 0 init_store).2
  /\ store_wf (add_product 5 1 init_store).2
  /\ store_wf (extract_product init_store).2.
Proof.
  pose proof (operations_keep_store_wf init_store init_store_wf)
    as (H1 & H2 & H3 & _).
  split; [apply H1|]. split; [|exact H3].
  apply H2. vm_compute. reflexivity.
Defined.

(** X5.  On a well-formed store the number of items a lane holds is its
    occupancy count; an insert that is not refused raises the total
    occupancy by exactly one and a refused one leaves it; an extraction
    lowers it by exactly one unless it is an underflow, which leaves it. *)
Theorem occupancy_accounting (s : store) :
  store_wf s ->
  (forall l, Z.of_nat (length (items l s)) = occupancy l s)
  /\ (forall item priority,
        stock (add_product item priority s).2
        = match (add_product item priority s).1 with
          | None => stock s + 1
          | Some _ => stock s
          end)
  /\ stock (extract_product s).2
     = match (extract_product s).1.2 with
       | None => stock s - 1
       | Some _ => stock s
       end.
Proof.
  intros Hwf. split_and!.
  - intros l. by apply items_length.
  - intros item priority. by apply stock_add_product.
  - by apply stock_extract_product.
Qed.

Lemma occupancy_accounting_witness :
  stock (add_product 5 0 init_store).2 = 1
  /\ stock (extract_product init_store).2 = 0.
Proof.
  pose proof (occupancy_accounting init_store init_store_wf)
    as (_ & H2 & H3).
  split; [apply (H2 5 0)|exact H3].
Defined.

(** * Further properties of the running program *)

(** ** What each piece of a thread does to the statistics *)

Lemma supplier_step_stats (pc pc' : supplier_pc) (r1 r2 : Z) (w w' : world) :
  mutex w = false ->
  supplier_step pc r1 r2 w = Some (pc', w') ->
  total_consumed w' = total_consumed w
  /\ simulation_count w' = simulation_count w
  /\ match pc with
     | S_check =>
         total_produced w' = total_produced w /\ errors w' = errors w
         /\ (pc' = S_exit /\ simulation_count w <= 0
             \/ pc' = S_wait (Z.rem r1 100) (Z.rem r2 MAX_PRIORITY)
                /\ 0 < simulation_count w)
     | S_crit item priority =>
         total_produced w' = total_produced w + 1
         /\ errors w'
            = match (add_product item priority (lanes w)).1 with
              | Some e => e :: errors w
              | None => errors w
              end
     | _ => total_produced w' = total_produced w /\ errors w' = errors w
     end.
Proof.
  intros Hm. destruct pc as [|item priority|item priority| |]; cbn.
  - unfold pthread_mutex_lock. rewrite Hm. cbn.
    rewrite !unlock_after_lock by done.
    destruct (simulation_count w <=? 0) eqn:E; intros [= <- <-];
      split_and!; try done; [left|right]; split; try done; lia.
  - unfold sem_wait_empty. destruct (0 <? empty w); [|done].
    by intros [= <- <-].
  - unfold supplier_critical, pthread_mutex_lock. rewrite Hm. cbn.
    destruct (add_product item priority (lanes w)) as [e s'].
    cbn. intros [= <- <-]. destruct e; cbn; split_and!; try done; lia.
  - by intros [= <- <-].
  - done.
Qed.

Lemma retailer_step_stats (pc pc' : retailer_pc) (w w' : world) :
  mutex w = false ->
  retailer_step pc w = Some (pc', w') ->
  total_produced w' = total_produced w
  /\ errors w' = errors w
  /\ match pc with
     | R_check =>
         total_consumed w' = total_consumed w
         /\ (pc' = R_exit /\ simulation_count w <= 0
             /\ simulation_count w' = simulation_count w
             \/ pc' = R_wait /\ 0 < simulation_count w
                /\ simulation_count w' = simulation_count w - 1)
     | R_crit =>
         simulation_count w' = simulation_count w
         /\ (pc' = R_release
             /\ total_consumed w' = total_consumed w + 1
             /\ ~ (in_ (lanes w) = out (lanes w)
                   /\ urgent_count (lanes w) = 0)
             /\ (extract_product (lanes w)).1.1 <> -1
             \/ pc' = R_repost
                /\ total_consumed w' = total_consumed w
                /\ (in_ (lanes w) = out (lanes w)
                    /\ urgent_count (lanes w) = 0
                    \/ (extract_product (lanes w)).1.1 = -1))
     | _ =>
         total_consumed w' = total_consumed w
         /\ simulation_count w' = simulation_count w
     end.
Proof.
  intros Hm. destruct pc; cbn.
  - unfold pthread_mutex_lock. rewrite Hm. cbn.
    destruct (simulation_count w <=? 0) eqn:E; intros [= <- <-]; cbn;
      split_and!; try done; [left|right]; split_and!; try done; lia.
  - unfold sem_wait_full. destruct (0 <? full w); [|done].
    by intros [= <- <-].
  - unfold retailer_critical, pthread_mutex_lock. rewrite Hm. cbn.
    destruct ((in_ (lanes w) =? out (lanes w))
              && (urgent_count (lanes w) =? 0)) eqn:Eempty.
    + intros [= <- <-]. cbn. split_and!; try done.
      right. split_and!; try done. left. lia.
    + assert (He : (extract_product (lanes w)).1.2 = None).
      { unfold extract_product. rewrite Eempty.
        by destruct (0 <? urgent_count (lanes w)). }
      destruct (extract_product (lanes w)) as [[item e] s']. cbn in He.
      subst e. cbn.
      destruct (item =? -1) eqn:Ei; intros [= <- <-]; cbn.
      * split_and!; try done. right. split_and!; try done. right. lia.
      * split_and!; try done; [lia|]. left. split_and!; try done; lia.
  - by intros [= <- <-].
  - by intros [= <- <-].
  - done.
Qed.

Lemma inserted_count_app (h1 h2 : list obs) :
  inserted_count (h1 ++ h2) = inserted_count h1 + inserted_count h2.
Proof. unfold inserted_count. rewrite !inserted_app, !length_app. lia. Qed.

Lemma served_count_app (h1 h2 : list obs) :
  served_count (h1 ++ h2) = served_count h1 + served_count h2.
Proof. unfold served_count. rewrite !served_app, !length_app. lia. Qed.

Lemma insertion_count (item priority : Z) (s : store) :
  inserted_count (insertion item priority s)
  = match (add_product item priority s).1 with
    | None => 1
    | Some _ => 0
    end
  /\ served_count (insertion item priority s) = 0.
Proof.
  unfold insertion. destruct (add_product item priority s) as [[e|] s'];
    [done|].
  unfold lane_of. by destruct (priority =? 0).
Qed.

Lemma extraction_count (s : store) :
  inserted_count (extraction s) = 0
  /\ served_count (extraction s)
     = if (in_ s =? out s) && (urgent_count s =? 0) then 0 else 1.
Proof.
  unfold extraction.
  destruct ((in_ s =? out s) && (urgent_count s =? 0)); [done|].
  by destruct (0 <? urgent_count s).
Qed.

(** One piece of a thread: the counters against what it does to the lanes. *)
Lemma step_stats (ev : event) (sys sys' : system) :
  gate_inv sys -> step ev sys = Some sys' ->
  total_produced (globals sys') - total_produced (globals sys)
  = inserted_count (observe ev sys)
    + (Z.of_nat (length (errors (globals sys')))
       - Z.of_nat (length (errors (globals sys))))
  /\ 0 <= total_consumed (globals sys') - total_consumed (globals sys)
       <= served_count (observe ev sys)
  /\ exists new,
       errors (globals sys') = new ++ errors (globals sys)
       /\ Forall (fun e => e = Buffer_overflow) new.
Proof.
  intros Hinv Hstep. pose proof Hinv as [Hm Hwf He Hf Htok Hstock].
  destruct ev as [i r1 r2|j]; cbn in Hstep; cbn [observe].
  - destruct (suppliers sys !! i) as [pc|] eqn:Hpc; [|done]. cbn in Hstep.
    destruct (supplier_step pc r1 r2 (globals sys)) as [[pc' w']|] eqn:Hs;
      [|done].
    cbn in Hstep. injection Hstep as <-. cbn [globals].
    destruct (supplier_step_stats _ _ _ _ _ _ Hm Hs) as (Hc & _ & Hspec).
    rewrite Hc.
    destruct pc as [|item priority|item priority| |];
      try (destruct Hspec as (-> & -> & _) || destruct Hspec as (-> & ->);
           split; [unfold inserted_count; cbn; lia|split; [unfold served_count; cbn; lia|by exists []; split; [|constructor]]]).
    destruct Hspec as (-> & ->).
    destruct (insertion_count item priority (lanes (globals sys)))
      as [Hins Hsrv].
    rewrite Hins, Hsrv.
    pose proof (add_product_overflow_iff item priority (lanes (globals sys)))
      as Hover.
    destruct (add_product item priority (lanes (globals sys))).1 as [e|] eqn:E.
    + split; [cbn [length]; lia|split; [lia|]].
      exists [e]. split; [done|]. apply Forall_singleton.
      unfold add_product in E.
      destruct (Z.rem (in_ (lanes (globals sys)) + 1) BUFFER_SIZE
                =? out (lanes (globals sys))); [by injection E|].
      by destruct (negb (priority =? 0)).
    + split; [lia|split; [lia|by exists []; split; [|constructor]]].
  - destruct (retailers sys !! j) as [pc|] eqn:Hpc; [|done]. cbn in Hstep.
    destruct (retailer_step pc (globals sys)) as [[pc' w']|] eqn:Hs; [|done].
    cbn in Hstep. injection Hstep as <-. cbn [globals].
    destruct (retailer_step_stats _ _ _ _ Hm Hs) as (-> & -> & Hspec).
    destruct pc;
      try (destruct Hspec as (-> & _);
           split; [unfold inserted_count; cbn; lia|split; [unfold served_count; cbn; lia|by exists []; split; [|constructor]]]).
    destruct Hspec as (_ & Hcase).
    destruct (extraction_count (lanes (globals sys))) as [Hins Hsrv].
    rewrite Hins, Hsrv.
    destruct Hcase as [(_ & -> & Hne & _)|(_ & -> & _)].
    + replace ((in_ (lanes (globals sys)) =? out (lanes (globals sys)))
               && (urgent_count (lanes (globals sys)) =? 0))
        with false by lia.
      split; [lia|split; [lia|by exists []; split; [|constructor]]].
    + split; [lia|split; [|by exists []; split; [|constructor]]].
      destruct ((in_ (lanes (globals sys)) =? out (lanes (globals sys)))
                && (urgent_count (lanes (globals sys)) =? 0)); lia.
Qed.

Lemma run_stats (evs : list event) (sys sys' : system) :
  gate_inv sys -> run evs sys = Some sys' ->
  total_produced (globals sys') - total_produced (globals sys)
  = inserted_count (history evs sys)
    + (Z.of_nat (length (errors (globals sys')))
       - Z.of_nat (length (errors (globals sys))))
  /\ 0 <= total_consumed (globals sys') - total_consumed (globals sys)
       <= served_count (history evs sys)
  /\ exists new,
       errors (globals sys') = new ++ errors (globals sys)
       /\ Forall (fun e => e = Buffer_overflow) new.
Proof.
  revert sys. induction evs as [|ev evs IH]; intros sys Hinv Hrun.
  - cbn in Hrun. injection Hrun as <-. unfold inserted_count, served_count.
    cbn. split; [lia|split; [lia|by exists []; split; [|constructor]]].
  - cbn in Hrun. cbn [history].
    destruct (step ev sys) as [sys1|] eqn:Hstep; [|done]. cbn in Hrun.
    destruct (step_stats _ _ _ Hinv Hstep) as (Hp1 & Hc1 & new1 & He1 & Hf1).
    destruct (IH sys1 (gate_inv_step _ _ _ Hinv Hstep) Hrun)
      as (Hp2 & Hc2 & new2 & He2 & Hf2).
    rewrite inserted_count_app, served_count_app.
    split; [lia|split; [lia|]].
    exists (new2 ++ new1). rewrite He2, He1, app_assoc.
    split; [done|]. by apply Forall_app.
Qed.

(** X6.  In a run of the threads from the start of the program
    [extract_product] never takes its underflow branch: every line
    [log_error] has printed is "Buffer overflow".  The test the retailer
    makes under the lock keeps [extract_product] away from an empty store. *)
Theorem underflow_never_logged
    (np nc count : Z) (evs : list event) (sys : system) :
  run evs (init_system np nc count) = Some sys ->
  Forall (fun e => e = Buffer_overflow) (errors (globals sys))
  /\ Buffer_underflow ∉ errors (globals sys).
Proof.
  intros Hrun.
  destruct (run_stats _ _ _ (gate_inv_init np nc count) Hrun)
    as (_ & _ & new & He & Hall).
  cbn in He. rewrite app_nil_r in He. subst new. split; [done|].
  intros Hin. rewrite Forall_forall in Hall. by specialize (Hall _ Hin).
Qed.

Lemma underflow_never_logged_witness :
  exists sys,
    run (replicate 1 (Retailer 0) ++ replicate 4 (Supplier 0 17 0)
         ++ replicate 4 (Retailer 0))
        (init_system 1 1 5) = Some sys
    /\ Buffer_underflow ∉ errors (globals sys).
Proof.
  eexists. split; [vm_compute; reflexivity|].
  match goal with
  | |- context [globals ?s] =>
      assert (Hrun : run (replicate 1 (Retailer 0)
                          ++ replicate 4 (Supplier 0 17 0)
                          ++ replicate 4 (Retailer 0))
                         (init_system 1 1 5) = Some s)
        by (vm_compute; reflexivity)
  end.
  exact (proj2 (underflow_never_logged _ _ _ _ _ Hrun)).
Defined.

Lemma run_counts (np nc count : Z) (evs : list event) (sys : system) :
  run evs (init_system np nc count) = Some sys ->
  inserted_count (history evs (init_system np nc count))
  = served_count (history evs (init_system np nc count))
    + stock (lanes (globals sys)).
Proof.
  intros Hrun.
  pose proof (gate_inv_run _ _ _ (gate_inv_init np nc count) Hrun) as [].
  pose proof (run_queues evs _ _ Normal_lane (gate_inv_init np nc count) Hrun)
    as Hn.
  pose proof (run_queues evs _ _ Urgent_lane (gate_inv_init np nc count) Hrun)
    as Hu.
  change (items Normal_lane (lanes (globals (init_system np nc count))))
    with (@nil Z) in Hn.
  change (items Urgent_lane (lanes (globals (init_system np nc count))))
    with (@nil Z) in Hu.
  cbn [app] in Hn, Hu. unfold inserted_count, served_count, stock.
  rewrite Hn, Hu, !length_app, !Nat2Z.inj_add.
  rewrite (items_length Normal_lane), (items_length Urgent_lane) by done.
  cbn [occupancy]. lia.
Qed.

(** X7.  Along every run of the threads from the start of the program,
    [total_produced] is the number of items put into the lanes plus the
    number of "Buffer overflow" lines, [total_consumed] is at most the
    number of items taken out, and the items put in are those taken out plus
    those still in the store.  So in the final report the consumed total,
    the two stock figures and the dropped items together never exceed the
    produced total. *)
Theorem statistics_account_for_items
    (np nc count : Z) (evs : list event) (sys : system) :
  run evs (init_system np nc count) = Some sys ->
  total_produced (globals sys)
  = inserted_count (history evs (init_system np nc count))
    + Z.of_nat (length (errors (globals sys)))
  /\ 0 <= total_consumed (globals sys)
       <= served_count (history evs (init_system np nc count))
  /\ inserted_count (history evs (init_system np nc count))
     = served_count (history evs (init_system np nc count))
       + stock (lanes (globals sys))
  /\ (let '(produced, consumed, normal, urgent) :=
        print_final_statistics (globals sys) in
      consumed + normal + urgent
      + Z.of_nat (length (errors (globals sys))) <= produced).
Proof.
  intros Hrun.
  destruct (run_stats _ _ _ (gate_inv_init np nc count) Hrun)
    as (Hp & Hc & _).
  pose proof (run_counts _ _ _ _ _ Hrun) as Hcnt.
  cbn in Hp, Hc. unfold print_final_statistics, stock in *.
  split; [lia|]. split; [lia|]. split; [lia|]. lia.
Qed.

Lemma statistics_account_for_items_witness :
  exists sys,
    run (concat (replicate 10 (replicate 4 (Supplier 0 17 0)))
         ++ replicate 5 (Retailer 0))
        (init_system 1 1 50) = Some sys
    /\ print_final_statistics (globals sys) = (10, 1, 8, 0)
    /\ total_consumed (globals sys) + stock (lanes (globals sys))
       + Z.of_nat (length (errors (globals sys)))
       <= total_produced (globals sys).
Proof.
  eexists. split; [vm_compute; reflexivity|].
  split; [vm_compute; reflexivity|].
  match goal with
  | |- context [globals ?s] =>
      assert (Hrun : run (concat (replicate 10 (replicate 4 (Supplier 0 17 0)))
                          ++ replicate 5 (Retailer 0))
                         (init_system 1 1 50) = Some s)
        by (vm_compute; reflexivity)
  end.
  pose proof (statistics_account_for_items _ _ _ _ _ Hrun) as (_ & _ & _ & H).
  exact H.
Defined.

(** ** Exact accounting when [rand] is never negative *)

Lemma extracted_item_is_held (s : store) (P : Z -> Prop) :
  store_wf s -> ~ (in_ s = out s /\ urgent_count s = 0) ->
  (forall l, Forall P (items l s)) ->
  P (extract_product s).1.1.
Proof.
  intros Hwf Hne Hall.
  destruct (decide (0 < urgent_count s)) as [Hu|Hu].
  - destruct (extract_product_urgent_items s Hwf Hu) as [Hh _].
    specialize (Hall Urgent_lane). rewrite Hh in Hall.
    by apply Forall_cons in Hall as [? _].
  - assert (Hu0 : urgent_count s = 0) by (destruct Hwf; lia).
    assert (Hio : in_ s <> out s) by lia.
    destruct (extract_product_normal_items s Hwf Hu0 Hio) as [Hh _].
    specialize (Hall Normal_lane). rewrite Hh in Hall.
    by apply Forall_cons in Hall as [? _].
Qed.

Lemma inserted_insertion_drawn (item priority : Z) (s : store) (l : lane)
    (P : Z -> Prop) :
  P item -> Forall P (inserted l (insertion item priority s)).
Proof.
  intros HP. unfold insertion.
  destruct (add_product item priority s) as [[e|] s']; cbn; [constructor|].
  destruct (same_lane (lane_of priority) l); by repeat constructor.
Qed.

Lemma step_drawn (ev : event) (sys sys' : system) :
  gate_inv sys -> Forall drawn (suppliers sys) ->
  items_drawn (lanes (globals sys)) ->
  rand_ok ev -> step ev sys = Some sys' ->
  Forall drawn (suppliers sys')
  /\ items_drawn (lanes (globals sys'))
  /\ total_consumed (globals sys') - total_consumed (globals sys)
     = served_count (observe ev sys)
  /\ filled_tokens sys' - stock (lanes (globals sys'))
     - Z.of_nat (length (errors (globals sys')))
     = filled_tokens sys - stock (lanes (globals sys))
       - Z.of_nat (length (errors (globals sys))).
Proof.
  intros Hinv Hpcs Hitems Hrand Hstep.
  pose proof Hinv as [Hm Hwf He Hf Htok Hstock].
  assert (Hitems' : items_drawn (lanes (globals sys'))).
  { intros l. pose proof (step_queues _ _ _ l Hinv Hstep) as Hq.
    assert (Hall : Forall (fun x => 0 <= x < 100)
                     (served l (observe ev sys)
                      ++ items l (lanes (globals sys')))).
    { rewrite <- Hq. apply Forall_app. split; [apply Hitems|].
      destruct ev as [i r1 r2|j]; cbn [observe].
      - destruct (suppliers sys !! i) as [[|it p|it p| |]|] eqn:Hpc;
          try constructor.
        apply inserted_insertion_drawn.
        by destruct (Forall_lookup_1 _ _ _ _ Hpcs Hpc).
      - destruct (retailers sys !! j) as [[]|]; try constructor.
        unfold extraction.
        by destruct ((in_ (lanes (globals sys)) =? out (lanes (globals sys)))
                     && (urgent_count (lanes (globals sys)) =? 0)). }
    by apply Forall_app in Hall as [_ ?]. }
  split_and!; [|done| |]; unfold filled_tokens;
    destruct ev as [i r1 r2|j]; cbn in Hstep; cbn [observe].
  - destruct (suppliers sys !! i) as [pc|] eqn:Hpc; [|done]. cbn in Hstep.
    destruct (supplier_step pc r1 r2 (globals sys)) as [[pc' w']|] eqn:Hs;
      [|done].
    cbn in Hstep. injection Hstep as <-. cbn [suppliers].
    apply Forall_insert; [done|].
    pose proof (Forall_lookup_1 _ _ _ _ Hpcs Hpc) as Hd.
    destruct (supplier_step_spec _ _ _ _ _ _ Hm Hs) as [_ Hspec].
    destruct (supplier_step_stats _ _ _ _ _ _ Hm Hs) as (_ & _ & Hstat).
    destruct pc as [|item priority|item priority| |]; cbn in Hspec.
    + destruct Hstat as (_ & _ & [[-> _]|[-> _]]); [done|].
      destruct Hrand as [Hr1 Hr2]. cbn. unfold MAX_PRIORITY.
      split; apply Z.rem_bound_pos; lia.
    + by destruct Hspec as (-> & _).
    + by destruct Hspec as (-> & _).
    + by destruct Hspec as (-> & _).
    + done.
  - destruct (retailers sys !! j) as [pc|] eqn:Hpc; [|done]. cbn in Hstep.
    destruct (retailer_step pc (globals sys)) as [[pc' w']|] eqn:Hs; [|done].
    cbn in Hstep. by injection Hstep as <-.
  - destruct (suppliers sys !! i) as [pc|] eqn:Hpc; [|done]. cbn in Hstep.
    destruct (supplier_step pc r1 r2 (globals sys)) as [[pc' w']|] eqn:Hs;
      [|done].
    cbn in Hstep. injection Hstep as <-. cbn [globals].
    destruct (supplier_step_stats _ _ _ _ _ _ Hm Hs) as (-> & _).
    destruct pc as [|item priority|item priority| |];
      unfold served_count; cbn; try lia.
    destruct (insertion_count item priority (lanes (globals sys)))
      as [_ Hsrv].
    unfold served_count in Hsrv. lia.
  - destruct (retailers sys !! j) as [pc|] eqn:Hpc; [|done]. cbn in Hstep.
    destruct (retailer_step pc (globals sys)) as [[pc' w']|] eqn:Hs; [|done].
    cbn in Hstep. injection Hstep as <-. cbn [globals].
    destruct (retailer_step_stats _ _ _ _ Hm Hs) as (_ & _ & Hstat).
    destruct pc;
      try (destruct Hstat as (-> & _); unfold served_count; cbn; lia).
    destruct Hstat as (_ & Hcase).
    destruct (extraction_count (lanes (globals sys))) as [_ Hsrv].
    rewrite Hsrv.
    destruct Hcase as [(_ & -> & Hne & _)|(_ & -> & [Hempty|Hminus])].
    + replace ((in_ (lanes (globals sys)) =? out (lanes (globals sys)))
               && (urgent_count (lanes (globals sys)) =? 0))
        with false by lia.
      lia.
    + replace ((in_ (lanes (globals sys)) =? out (lanes (globals sys)))
               && (urgent_count (lanes (globals sys)) =? 0))
        with true by lia.
      lia.
    + destruct ((in_ (lanes (globals sys)) =? out (lanes (globals sys)))
                && (urgent_count (lanes (globals sys)) =? 0)) eqn:E; [lia|].
      assert (Hne : ~ (in_ (lanes (globals sys)) = out (lanes (globals sys))
                       /\ urgent_count (lanes (globals sys)) = 0)) by lia.
      pose proof (extracted_item_is_held _ (fun x => 0 <= x < 100)
                    Hwf Hne Hitems) as Hr.
      cbn beta in Hr. lia.
  - destruct (suppliers sys !! i) as [pc|] eqn:Hpc; [|done]. cbn in Hstep.
    destruct (supplier_step pc r1 r2 (globals sys)) as [[pc' w']|] eqn:Hs;
      [|done].
    cbn in Hstep. injection Hstep as <-. cbn [globals suppliers retailers].
    destruct (supplier_step_spec _ _ _ _ _ _ Hm Hs) as [_ Hspec].
    destruct (supplier_step_stats _ _ _ _ _ _ Hm Hs) as (_ & _ & Hstat).
    rewrite (total_insert supplier_filled _ _ _ pc' Hpc).
    destruct pc as [|item priority|item priority| |]; cbn in Hspec.
    + destruct Hspec as (-> & _ & ->). cbn. lia.
    + destruct Hspec as (-> & -> & _ & _ & ->).
      destruct Hstat as (_ & ->). cbn. lia.
    + destruct Hspec as (-> & -> & _ & ->). destruct Hstat as (_ & ->).
      rewrite (stock_add_product item priority _ Hwf).
      destruct (add_product item priority (lanes (globals sys))).1;
        cbn [length supplier_filled]; lia.
    + destruct Hspec as (-> & -> & _ & ->). destruct Hstat as (_ & ->).
      cbn. lia.
    + done.
  - destruct (retailers sys !! j) as [pc|] eqn:Hpc; [|done]. cbn in Hstep.
    destruct (retailer_step pc (globals sys)) as [[pc' w']|] eqn:Hs; [|done].
    cbn in Hstep. injection Hstep as <-. cbn [globals suppliers retailers].
    destruct (retailer_step_spec _ _ _ _ Hm Hs) as [_ Hspec].
    destruct (retailer_step_stats _ _ _ _ Hm Hs) as (_ & -> & Hstat).
    rewrite (total_insert retailer_filled _ _ _ pc' Hpc).
    destruct pc; cbn in Hspec.
    + destruct Hspec as (-> & _ & -> & _ & ->). cbn. lia.
    + destruct Hspec as (-> & -> & _ & _ & ->). cbn. lia.
    + destruct Hspec as (_ & -> & Hcase).
      destruct Hstat as (_ & Hstat).
      destruct Hcase as [(Hio & Hu & -> & ->)|(Hne & Hpc' & ->)];
        [cbn; lia|].
      pose proof (extracted_item_is_held _ (fun x => 0 <= x < 100)
                    Hwf Hne Hitems) as Hr.
      cbn beta in Hr.
      destruct Hstat as [(-> & _)|(_ & _ & [Hempty|Hminus])]; [|lia|lia].
      rewrite (stock_extract_product _ Hwf).
      assert (Hnone : (extract_product (lanes (globals sys))).1.2 = None).
      { unfold extract_product.
        replace ((in_ (lanes (globals sys)) =? out (lanes (globals sys)))
                 && (urgent_count (lanes (globals sys)) =? 0))
          with false by lia.
        by destruct (0 <? urgent_count (lanes (globals sys))). }
      rewrite Hnone. cbn. lia.
    + destruct Hspec as (-> & -> & _ & ->). cbn. lia.
    + destruct Hspec as (-> & -> & _ & ->). cbn. lia.
    + done.
Qed.

Lemma run_drawn (evs : list event) (sys sys' : system) :
  gate_inv sys -> Forall drawn (suppliers sys) ->
  items_drawn (lanes (globals sys)) ->
  Forall rand_ok evs -> run evs sys = Some sys' ->
  items_drawn (lanes (globals sys'))
  /\ total_consumed (globals sys') - total_consumed (globals sys)
     = served_count (history evs sys)
  /\ filled_tokens sys' - stock (lanes (globals sys'))
     - Z.of_nat (length (errors (globals sys')))
     = filled_tokens sys - stock (lanes (globals sys))
       - Z.of_nat (length (errors (globals sys))).
Proof.
  revert sys. induction evs as [|ev evs IH];
    intros sys Hinv Hpcs Hitems Hrand Hrun.
  - cbn in Hrun. injection Hrun as <-. unfold served_count. cbn.
    split_and!; [done|lia|done].
  - cbn in Hrun. cbn [history].
    destruct (step ev sys) as [sys1|] eqn:Hstep; [|done]. cbn in Hrun.
    apply Forall_cons in Hrand as [Hev Hrand].
    destruct (step_drawn _ _ _ Hinv Hpcs Hitems Hev Hstep)
      as (Hpcs1 & Hitems1 & Hc1 & Ht1).
    destruct (IH sys1 (gate_inv_step _ _ _ Hinv Hstep) Hpcs1 Hitems1
                Hrand Hrun) as (Hitems2 & Hc2 & Ht2).
    rewrite served_count_app. split_and!; [done|lia|lia].
Qed.

Lemma produced_is_inserted_plus_dropped
    (np nc count : Z) (evs : list event) (sys : system) :
  run evs (init_system np nc count) = Some sys ->
  total_produced (globals sys)
  = inserted_count (history evs (init_system np nc count))
    + Z.of_nat (length (errors (globals sys)))
  /\ inserted_count (history evs (init_system np nc count))
     = served_count (history evs (init_system np nc count))
       + stock (lanes (globals sys)).
Proof.
  intros Hrun.
  destruct (run_stats _ _ _ (gate_inv_init np nc count) Hrun) as (Hp & _).
  pose proof (run_counts _ _ _ _ _ Hrun) as Hcnt.
  cbn in Hp. split; [lia|done].
Qed.

(** X8.  When [rand] returns no negative value, every item in the lanes is
    between [0] and [99], so the sentinel test [item == -1] of the retailer
    never fires on a real item, and the accounts are exact at every point
    of a run: [total_consumed] is the number of items taken out,
    [total_produced] is [total_consumed] plus the items in the store plus
    the items dropped with "Buffer overflow", and the filled-slot tokens
    exceed the items in the store by exactly the number of dropped items. *)
Theorem exact_accounting
    (np nc count : Z) (evs : list event) (sys : system) :
  Forall rand_ok evs ->
  run evs (init_system np nc count) = Some sys ->
  items_drawn (lanes (globals sys))
  /\ total_consumed (globals sys)
     = served_count (history evs (init_system np nc count))
  /\ total_produced (globals sys)
     = total_consumed (globals sys) + stock (lanes (globals sys))
       + Z.of_nat (length (errors (globals sys)))
  /\ filled_tokens sys
     = stock (lanes (globals sys))
       + Z.of_nat (length (errors (globals sys))).
Proof.
  intros Hrand Hrun.
  assert (Hpcs : Forall drawn (suppliers (init_system np nc count))).
  { cbn. by apply Forall_replicate. }
  assert (Hitems : items_drawn (lanes (globals (init_system np nc count)))).
  { intros []; constructor. }
  destruct (run_drawn _ _ _ (gate_inv_init np nc count) Hpcs Hitems Hrand Hrun)
    as (Hi & Hc & Ht).
  destruct (produced_is_inserted_plus_dropped np nc count evs sys Hrun)
    as (Hp & Hcnt).
  unfold filled_tokens in *. cbn in Hc, Ht.
  rewrite !total_replicate_zero in Ht by done.
  change (stock init_store) with 0 in Ht.
  split_and!; [done|lia|lia|lia].
Qed.

Lemma exact_accounting_witness :
  exists sys,
    run (concat (replicate 10 (replicate 4 (Supplier 0 17 0)))
         ++ replicate 5 (Retailer 0))
        (init_system 1 1 50) = Some sys
    /\ total_produced (globals sys)
       = total_consumed (globals sys) + stock (lanes (globals sys))
         + Z.of_nat (length (errors (globals sys)))
    /\ filled_tokens sys
       = stock (lanes (globals sys))
         + Z.of_nat (length (errors (globals sys))).
Proof.
  eexists. split; [vm_compute; reflexivity|].
  match goal with
  | |- context [globals ?s] =>
      assert (Hrun : run (concat (replicate 10 (replicate 4 (Supplier 0 17 0)))
                          ++ replicate 5 (Retailer 0))
                         (init_system 1 1 50) = Some s)
        by (vm_compute; reflexivity)
  end.
  assert (Hrand : Forall rand_ok
                    (concat (replicate 10 (replicate 4 (Supplier 0 17 0)))
                     ++ replicate 5 (Retailer 0))).
  { cbn. repeat (constructor; [first [exact I | cbn; lia]|]). constructor. }
  destruct (exact_accounting _ _ _ _ _ Hrand Hrun) as (_ & _ & H3 & H4).
  split; [exact H3|exact H4].
Defined.

(** ** The work bound *)

Lemma step_work (ev : event) (sys sys' : system) :
  gate_inv sys -> step ev sys = Some sys' ->
  simulation_count (globals sys') <= simulation_count (globals sys)
  /\ (0 <= simulation_count (globals sys) ->
      0 <= simulation_count (globals sys'))
  /\ total_consumed (globals sys') + total retailer_pending (retailers sys')
     + simulation_count (globals sys')
     <= total_consumed (globals sys) + total retailer_pending (retailers sys)
        + simulation_count (globals sys).
Proof.
  intros Hinv Hstep. pose proof Hinv as [Hm _ _ _ _ _].
  destruct ev as [i r1 r2|j]; cbn in Hstep.
  - destruct (suppliers sys !! i) as [pc|] eqn:Hpc; [|done]. cbn in Hstep.
    destruct (supplier_step pc r1 r2 (globals sys)) as [[pc' w']|] eqn:Hs;
      [|done].
    cbn in Hstep. injection Hstep as <-. cbn [globals retailers].
    destruct (supplier_step_stats _ _ _ _ _ _ Hm Hs) as (-> & -> & _). lia.
  - destruct (retailers sys !! j) as [pc|] eqn:Hpc; [|done]. cbn in Hstep.
    destruct (retailer_step pc (globals sys)) as [[pc' w']|] eqn:Hs; [|done].
    cbn in Hstep. injection Hstep as <-. cbn [globals retailers].
    destruct (retailer_step_stats _ _ _ _ Hm Hs) as (_ & _ & Hstat).
    destruct (retailer_step_spec _ _ _ _ Hm Hs) as (_ & Hspec).
    rewrite (total_insert retailer_pending _ _ _ pc' Hpc).
    destruct pc; cbn in Hspec.
    + destruct Hstat as (-> & [(-> & Hle & ->)|(-> & Hlt & ->)]); cbn; lia.
    + destruct Hstat as (-> & ->). destruct Hspec as (-> & _). cbn. lia.
    + destruct Hstat as (-> & [(-> & -> & _)|(-> & -> & _)]); cbn; lia.
    + destruct Hstat as (-> & ->). destruct Hspec as (-> & _). cbn. lia.
    + destruct Hstat as (-> & ->). destruct Hspec as (-> & _). cbn. lia.
    + done.
Qed.

Lemma run_work (evs : list event) (sys sys' : system) :
  gate_inv sys -> run evs sys = Some sys' ->
  simulation_count (globals sys') <= simulation_count (globals sys)
  /\ (0 <= simulation_count (globals sys) ->
      0 <= simulation_count (globals sys'))
  /\ total_consumed (globals sys') + total retailer_pending (retailers sys')
     + simulation_count (globals sys')
     <= total_consumed (globals sys) + total retailer_pending (retailers sys)
        + simulation_count (globals sys).
Proof.
  revert sys. induction evs as [|ev evs IH]; intros sys Hinv Hrun.
  - cbn in Hrun. injection Hrun as <-. lia.
  - cbn in Hrun. destruct (step ev sys) as [sys1|] eqn:Hstep; [|done].
    cbn in Hrun.
    destruct (step_work _ _ _ Hinv Hstep) as (H1 & H2 & H3).
    destruct (IH sys1 (gate_inv_step _ _ _ Hinv Hstep) Hrun)
      as (G1 & G2 & G3).
    split_and!; lia.
Qed.

Lemma total_nonneg {A} (f : A -> Z) (l : list A) :
  (forall a, 0 <= f a) -> 0 <= total f l.
Proof.
  intros Hf. induction l as [|a l IH]; [done|].
  rewrite total_cons. specialize (Hf a). lia.
Qed.

(** X9.  With a work bound that is not negative, [simulation_count] never
    rises and never drops below zero in a run, and the items counted as
    consumed, together with the retailers that have taken a unit of the
    bound and are still waiting or extracting, never exceed what has been
    taken off the bound: [total_consumed] stays within the work bound. *)
Theorem work_bound_limits_consumption
    (np nc count : Z) (evs : list event) (sys : system) :
  0 <= count ->
  run evs (init_system np nc count) = Some sys ->
  0 <= simulation_count (globals sys) <= count
  /\ total_consumed (globals sys) + total retailer_pending (retailers sys)
     <= count - simulation_count (globals sys)
  /\ 0 <= total_consumed (globals sys) <= count.
Proof.
  intros Hcount Hrun.
  destruct (run_work _ _ _ (gate_inv_init np nc count) Hrun)
    as (H1 & H2 & H3).
  destruct (run_stats _ _ _ (gate_inv_init np nc count) Hrun)
    as (_ & Hc & _).
  cbn in H1, H2, H3, Hc.
  rewrite total_replicate_zero in H3 by done.
  assert (0 <= total retailer_pending (retailers sys)).
  { apply total_nonneg. intros []; cbn; lia. }
  specialize (H2 Hcount). split_and!; lia.
Qed.

Lemma work_bound_limits_consumption_witness :
  exists sys,
    run (replicate 4 (Supplier 0 17 0) ++ replicate 5 (Retailer 0)
         ++ replicate 1 (Retailer 1))
        (init_system 1 2 3) = Some sys
    /\ 0 <= simulation_count (globals sys) <= 3
    /\ 0 <= total_consumed (globals sys) <= 3.
Proof.
  eexists. split; [vm_compute; reflexivity|].
  match goal with
  | |- context [globals ?s] =>
      assert (Hrun : run (replicate 4 (Supplier 0 17 0)
                          ++ replicate 5 (Retailer 0)
                          ++ replicate 1 (Retailer 1))
                         (init_system 1 2 3) = Some s)
        by (vm_compute; reflexivity)
  end.
  assert (Hcount : 0 <= 3) by lia.
  destruct (work_bound_limits_consumption _ _ _ _ _ Hcount Hrun)
    as (H1 & _ & H3).
  split; [exact H1|exact H3].
Defined.

(** ** Blocking *)

Lemma supplier_step_enabled (pc : supplier_pc) (r1 r2 : Z) (w : world) :
  mutex w = false ->
  supplier_step pc r1 r2 w = None
  <-> pc = S_exit
      \/ (exists item priority, pc = S_wait item priority) /\ empty w <= 0.
Proof.
  intros Hm. destruct pc as [|item priority|item priority| |]; cbn.
  - unfold pthread_mutex_lock. rewrite Hm. cbn.
    destruct (simulation_count w <=? 0);
      (split; [done|intros [?|[(? & ? & ?) _]]; done]).
  - unfold sem_wait_empty. destruct (0 <? empty w) eqn:E; cbn.
    + split; [done|]. intros [?|[_ ?]]; [done|lia].
    + split; [|done]. intros _. right. split; [eauto|lia].
  - unfold supplier_critical, pthread_mutex_lock. rewrite Hm. cbn.
    destruct (add_product item priority (lanes w)).
    split; [done|intros [?|[(? & ? & ?) _]]; done].
  - split; [done|intros [?|[(? & ? & ?) _]]; done].
  - split; [by left|done].
Qed.

Lemma retailer_step_enabled (pc : retailer_pc) (w : world) :
  mutex w = false ->
  retailer_step pc w = None <-> pc = R_exit \/ pc = R_wait /\ full w <= 0.
Proof.
  intros Hm. destruct pc; cbn.
  - unfold pthread_mutex_lock. rewrite Hm. cbn.
    destruct (simulation_count w <=? 0);
      (split; [done|intros [?|[? _]]; done]).
  - unfold sem_wait_full. destruct (0 <? full w) eqn:E; cbn.
    + split; [done|]. intros [?|[_ ?]]; [done|lia].
    + split; [|done]. intros _. right. split; [done|lia].
  - unfold retailer_critical, pthread_mutex_lock. rewrite Hm. cbn.
    destruct ((in_ (lanes w) =? out (lanes w))
              && (urgent_count (lanes w) =? 0)).
    + split; [done|intros [?|[? _]]; done].
    + destruct (extract_product (lanes w)) as [[item e] s'].
      destruct (item =? -1); (split; [done|intros [?|[? _]]; done]).
  - split; [done|intros [?|[? _]]; done].
  - split; [done|intros [?|[? _]]; done].
  - split; [by left|done].
Qed.

Lemma total_pos_lookup {A} (f : A -> Z) (l : list A) :
  0 < total f l -> exists k x, l !! k = Some x /\ f x <> 0.
Proof.
  induction l as [|a l IH]; [done|].
  rewrite total_cons. intros Hpos.
  destruct (decide (f a = 0)) as [Hz|Hnz].
  - destruct IH as (k & x & Hk & Hx); [lia|]. by exists (S k), x.
  - by exists 0%nat, a.
Qed.

Lemma step_supplier_some (sys : system) (i : nat) (pc : supplier_pc) :
  mutex (globals sys) = false ->
  suppliers sys !! i = Some pc ->
  supplier_step pc 0 0 (globals sys) <> None ->
  exists ev sys', step ev sys = Some sys'.
Proof.
  intros Hm Hpc Hen.
  destruct (supplier_step pc 0 0 (globals sys)) as [[pc' w']|] eqn:Hs;
    [|done].
  exists (Supplier i 0 0). eexists. cbn. rewrite Hpc. cbn. rewrite Hs. done.
Qed.

Lemma step_retailer_some (sys : system) (j : nat) (pc : retailer_pc) :
  mutex (globals sys) = false ->
  retailers sys !! j = Some pc ->
  retailer_step pc (globals sys) <> None ->
  exists ev sys', step ev sys = Some sys'.
Proof.
  intros Hm Hpc Hen.
  destruct (retailer_step pc (globals sys)) as [[pc' w']|] eqn:Hs; [|done].
  exists (Retailer j). eexists. cbn. rewrite Hpc. cbn. rewrite Hs. done.
Qed.

(** X10.  In every state a run reaches from the start of the program, a
    thread that has not left its loop can be stopped only at its
    [sem_wait], and only while its semaphore is at zero.  As long as one
    supplier and one retailer have not left their loops, some thread can
    take its next step: the gate does not deadlock. *)
Theorem gate_does_not_deadlock
    (np nc count : Z) (evs : list event) (sys : system) :
  run evs (init_system np nc count) = Some sys ->
  (forall i pc r1 r2,
     suppliers sys !! i = Some pc ->
     step (Supplier i r1 r2) sys = None
     <-> pc = S_exit
         \/ (exists item priority, pc = S_wait item priority)
            /\ empty (globals sys) = 0)
  /\ (forall j pc,
        retailers sys !! j = Some pc ->
        step (Retailer j) sys = None
        <-> pc = R_exit \/ pc = R_wait /\ full (globals sys) = 0)
  /\ (forall i j pcs pcr,
        suppliers sys !! i = Some pcs -> pcs <> S_exit ->
        retailers sys !! j = Some pcr -> pcr <> R_exit ->
        exists ev sys', step ev sys = Some sys').
Proof.
  intros Hrun.
  pose proof (gate_inv_run _ _ _ (gate_inv_init np nc count) Hrun) as Hinv.
  pose proof Hinv as [Hm Hwf He Hf Htok Hstock].
  split_and!.
  - intros i pc r1 r2 Hpc.
    pose proof (supplier_step_enabled pc r1 r2 _ Hm) as Hen.
    assert (Hiff : pc = S_exit
                   \/ (exists item priority, pc = S_wait item priority)
                      /\ empty (globals sys) = 0
                   <-> pc = S_exit
                       \/ (exists item priority, pc = S_wait item priority)
                          /\ empty (globals sys) <= 0).
    { split; (intros [?|[? ?]]; [by left|right; split; [done|lia]]). }
    rewrite Hiff, <- Hen. cbn. rewrite Hpc. cbn.
    by destruct (supplier_step pc r1 r2 (globals sys)) as [[pc' w']|].
  - intros j pc Hpc.
    pose proof (retailer_step_enabled pc _ Hm) as Hen.
    assert (Hiff : pc = R_exit \/ pc = R_wait /\ full (globals sys) = 0
                   <-> pc = R_exit \/ pc = R_wait /\ full (globals sys) <= 0).
    { split; (intros [?|[? ?]]; [by left|right; split; [done|lia]]). }
    rewrite Hiff, <- Hen. cbn. rewrite Hpc. cbn.
    by destruct (retailer_step pc (globals sys)) as [[pc' w']|].
  - intros i j pcs pcr Hi Hs Hj Hr.
    destruct (supplier_step pcs 0 0 (globals sys)) as [p|] eqn:Es.
    { eapply step_supplier_some; [done..|]. by rewrite Es. }
    apply (supplier_step_enabled _ _ _ _ Hm) in Es
      as [?|[_ Hempty]]; [done|].
    destruct (retailer_step pcr (globals sys)) as [p|] eqn:Er.
    { eapply step_retailer_some; [done..|]. by rewrite Er. }
    apply (retailer_step_enabled _ _ Hm) in Er as [?|[_ Hfull]]; [done|].
    assert (Hheld : 0 < total supplier_holds (suppliers sys)
                    \/ 0 < total retailer_holds (retailers sys)).
    { pose proof (total_nonneg supplier_holds (suppliers sys)) as H1.
      pose proof (total_nonneg retailer_holds (retailers sys)) as H2.
      unfold BUFFER_SIZE in Htok.
      assert (0 <= total supplier_holds (suppliers sys))
        by (apply H1; intros []; cbn; lia).
      assert (0 <= total retailer_holds (retailers sys))
        by (apply H2; intros []; cbn; lia).
      lia. }
    destruct Hheld as [Hheld|Hheld].
    + apply total_pos_lookup in Hheld as (k & pc & Hk & Hpc).
      eapply (step_supplier_some _ k pc); [done..|].
      intros Hnone. apply (supplier_step_enabled _ _ _ _ Hm) in Hnone.
      destruct Hnone as [->|[(it & p & ->) _]]; by cbn in Hpc.
    + apply total_pos_lookup in Hheld as (k & pc & Hk & Hpc).
      eapply (step_retailer_some _ k pc); [done..|].
      intros Hnone. apply (retailer_step_enabled _ _ Hm) in Hnone.
      destruct Hnone as [->|[-> _]]; by cbn in Hpc.
Qed.

Lemma gate_does_not_deadlock_witness :
  exists sys,
    run (replicate 2 (Supplier 0 17 0) ++ replicate 1 (Retailer 0))
        (init_system 1 1 5) = Some sys
    /\ suppliers sys !! 0%nat = Some (S_crit 17 0)
    /\ retailers sys !! 0%nat = Some R_wait
    /\ step (Retailer 0) sys = None
    /\ exists ev sys', step ev sys = Some sys'.
Proof.
  eexists. split; [vm_compute; reflexivity|].
  split; [reflexivity|]. split; [reflexivity|].
  match goal with
  | |- context [step _ ?s] =>
      assert (Hrun : run (replicate 2 (Supplier 0 17 0)
                          ++ replicate 1 (Retailer 0))
                         (init_system 1 1 5) = Some s)
        by (vm_compute; reflexivity)
  end.
  destruct (gate_does_not_deadlock _ _ _ _ _ Hrun) as (_ & H2 & H3).
  split.
  - apply (H2 0%nat R_wait); [reflexivity|]. right. split; reflexivity.
  - apply (H3 0%nat 0%nat (S_crit 17 0) R_wait); done.
Defined.

(** ** Retailers left waiting when the work bound runs out *)

Lemma step_stranded (ev : event) (sys sys' : system) :
  stranded sys -> step ev sys = Some sys' ->
  stranded sys'
  /\ forall j, retailers sys !! j = Some R_wait ->
               retailers sys' !! j = Some R_wait.
Proof.
  intros [Hm Hcount Hfull Hsup Hret] Hstep.
  destruct ev as [i r1 r2|j]; cbn in Hstep.
  - destruct (suppliers sys !! i) as [pc|] eqn:Hpc; [|done]. cbn in Hstep.
    destruct (supplier_step pc r1 r2 (globals sys)) as [[pc' w']|] eqn:Hs;
      [|done].
    cbn in Hstep. injection Hstep as <-.
    destruct (Forall_lookup_1 _ _ _ _ Hsup Hpc) as [-> | ->]; [|done].
    destruct (supplier_step_spec _ _ _ _ _ _ Hm Hs) as [_ (-> & _)].
    destruct (supplier_step_stats _ _ _ _ _ _ Hm Hs)
      as (_ & _ & _ & _ & [[-> _]|[_ Hlt]]); [|lia].
    split; [|done]. split; cbn; try done.
    apply Forall_insert; [done|by right].
  - destruct (retailers sys !! j) as [pc|] eqn:Hpc; [|done]. cbn in Hstep.
    destruct (retailer_step pc (globals sys)) as [[pc' w']|] eqn:Hs; [|done].
    cbn in Hstep. injection Hstep as <-.
    destruct (Forall_lookup_1 _ _ _ _ Hret Hpc) as [-> | [-> | ->]];
      [| |done].
    + destruct (retailer_step_stats _ _ _ _ Hm Hs)
        as (_ & _ & _ & [(-> & _ & Hc)|(_ & Hlt & _)]); [|lia].
      destruct (retailer_step_spec _ _ _ _ Hm Hs)
        as [Hm' (_ & _ & Hf & _)].
      split.
      * split; cbn; try done; [lia|lia|].
        apply Forall_insert; [done|by right; right].
      * intros j' Hj'. cbn.
        destruct (decide (j = j')) as [<-|Hne]; [congruence|].
        by rewrite list_lookup_insert_ne.
    + cbn in Hs. unfold sem_wait_full in Hs.
      by replace (0 <? full (globals sys)) with false in Hs by lia.
Qed.

Lemma run_stranded (evs : list event) (sys sys' : system) :
  stranded sys -> run evs sys = Some sys' ->
  stranded sys'
  /\ forall j, retailers sys !! j = Some R_wait ->
               retailers sys' !! j = Some R_wait.
Proof.
  revert sys. induction evs as [|ev evs IH]; intros sys Hsd Hrun.
  - cbn in Hrun. by injection Hrun as <-.
  - cbn in Hrun. destruct (step ev sys) as [sys1|] eqn:Hstep; [|done].
    cbn in Hrun.
    destruct (step_stranded _ _ _ Hsd Hstep) as [Hsd1 Hw1].
    destruct (IH sys1 Hsd1 Hrun) as [Hsd2 Hw2]. split; [done|]. auto.
Qed.

(** X11.  Once the work counter is used up, [full] is at zero, the
    suppliers are at the top of their loop or gone and no retailer holds a
    token, nothing the threads do changes that: the suppliers and the
    retailers at the top of their loop leave, and a retailer waiting in
    [sem_wait(&full)] waits for ever, since nothing but the signal handler
    posts [full] then.  Such a state is reached by the first step of a
    retailer when the work bound is [1]. *)
Theorem exhausted_bound_strands_retailers :
  (forall evs sys sys',
     stranded sys -> run evs sys = Some sys' ->
     stranded sys'
     /\ forall j, retailers sys !! j = Some R_wait ->
          retailers sys' !! j = Some R_wait
          /\ step (Retailer j) sys' = None)
  /\ (forall np nc,
        0 < nc ->
        exists sys,
          run [Retailer 0] (init_system np nc 1) = Some sys
          /\ stranded sys
          /\ retailers sys !! 0%nat = Some R_wait).
Proof.
  split.
  - intros evs sys sys' Hsd Hrun.
    destruct (run_stranded _ _ _ Hsd Hrun) as [Hsd' Hw].
    split; [done|]. intros j Hj. specialize (Hw j Hj). split; [done|].
    cbn. rewrite Hw. cbn. unfold sem_wait_full.
    destruct Hsd' as [_ _ Hfull _ _]. by rewrite Hfull.
  - intros np nc Hnc.
    assert (Hl : replicate (Z.to_nat nc) R_check
                 = R_check :: replicate (Z.to_nat (nc - 1)) R_check).
    { replace (Z.to_nat nc) with (S (Z.to_nat (nc - 1))) by lia. done. }
    eexists. split_and!.
    + cbn. rewrite Hl. cbn. reflexivity.
    + split; cbn; try done.
      * by apply Forall_replicate; left.
      * constructor; [by right; left|]. by apply Forall_replicate; left.
    + done.
Qed.

Lemma exhausted_bound_strands_retailers_witness :
  exists sys sys',
    run [Retailer 0] (init_system 2 2 1) = Some sys
    /\ run [Supplier 0 5 1; Supplier 1 6 0; Retailer 1] sys = Some sys'
    /\ suppliers sys' = [S_exit; S_exit]
    /\ retailers sys' = [R_wait; R_exit]
    /\ step (Retailer 0) sys' = None.
Proof.
  destruct (proj2 exhausted_bound_strands_retailers 2 2)
    as (sys & Hrun & Hsd & Hw); [lia|].
  exists sys. cbn in Hrun. injection Hrun as <-.
  eexists. split; [reflexivity|]. split; [vm_compute; reflexivity|].
  split; [reflexivity|]. split; [reflexivity|].
  match goal with
  | |- step _ ?s' = None =>
      assert (Hrun' : run [Supplier 0 5 1; Supplier 1 6 0; Retailer 1]
                        (mkSystem
                           (mkWorld init_store 10 0 false 1 0 0 0 2 2 [])
                           [S_check; S_check] [R_wait; R_check])
                      = Some s') by (vm_compute; reflexivity)
  end.
  destruct (proj1 exhausted_bound_strands_retailers _ _ _ Hsd Hrun')
    as [_ Hw'].
  exact (proj2 (Hw' 0%nat eq_refl)).
Defined.

(** * Further properties of the startup input *)

Lemma skip_space_Forall (P : ascii -> Prop) (inp : list ascii) :
  Forall P inp -> Forall P (skip_space inp).
Proof.
  induction 1 as [|c inp Hc Hinp IH]; cbn; [constructor|].
  destruct (isspace c); [done|by constructor].
Qed.

Lemma discard_line_Forall (P : ascii -> Prop) (inp rest : list ascii) :
  Forall P inp -> discard_line inp = Some rest -> Forall P rest.
Proof.
  induction 1 as [|c inp Hc Hinp IH]; cbn; [done|].
  destruct (code c =? 10); [by intros [= <-]|done].
Qed.

Lemma scanf_d_without_digit (inp : list ascii) :
  Forall (fun c => digit_of c = None) inp ->
  ((scanf_d inp).1 = Matching_failure \/ (scanf_d inp).1 = Input_failure)
  /\ Forall (fun c => digit_of c = None) (scanf_d inp).2.
Proof.
  intros Hall. apply (skip_space_Forall _ _) in Hall. unfold scanf_d.
  destruct (skip_space inp) as [|c rest]; [split; [by right|constructor]|].
  assert (Hbody : Forall (fun c => digit_of c = None)
                    (if (code c =? 45) || (code c =? 43)
                     then rest else c :: rest)).
  { destruct ((code c =? 45) || (code c =? 43)); [|done].
    by apply Forall_cons in Hall as [_ ?]. }
  destruct (if (code c =? 45) || (code c =? 43) then rest else c :: rest)
    as [|d body']; [split; [by right|constructor]|].
  pose proof Hbody as Hb. apply Forall_cons in Hb as [Hd _]. rewrite Hd.
  split; [by left|done].
Qed.

Lemma read_positive_loop_without_digit (fuel k : nat) (inp : list ascii) :
  (length inp < fuel)%nat ->
  Forall (fun c => digit_of c = None) inp ->
  exists k', read_positive_loop fuel k inp = Hangs k' /\ (k < k')%nat.
Proof.
  revert k inp. induction fuel as [|fuel IH]; intros k inp Hlen Hall; [lia|].
  cbn [read_positive_loop].
  pose proof (scanf_d_length inp) as Hs.
  destruct (scanf_d_without_digit inp Hall) as [Hr Hrest].
  destruct (scanf_d inp) as [r rest]. cbn [fst snd] in *.
  assert (Hagain : exists k',
             match discard_line rest with
             | Some rest' => read_positive_loop fuel (S k) rest'
             | None => Hangs (S k)
             end = Hangs k' /\ (k < k')%nat).
  { destruct (discard_line rest) as [rest'|] eqn:Ed.
    - pose proof (discard_line_length _ _ Ed).
      destruct (IH (S k) rest') as (k' & Hk' & Hlt);
        [lia|by eapply discard_line_Forall|].
      exists k'. split; [done|lia].
    - exists (S k). split; [done|lia]. }
  by destruct Hr as [-> | ->].
Qed.

(** X12.  An input without a decimal digit is never accepted and never
    replaced by a default: after at least one "Invalid input" prompt the
    loop is left reading the end of the input for ever, and so is [main]. *)
Theorem input_without_digit_hangs (inp : list ascii) :
  Forall (fun c => digit_of c = None) inp ->
  (exists k, read_positive inp = Hangs k /\ (1 <= k)%nat)
  /\ read_config inp = Config_hangs.
Proof.
  intros Hall.
  destruct (read_positive_loop_without_digit (S (length inp)) 0 inp)
    as (k & Hk & Hlt); [lia|done|].
  split; [exists k; split; [done|lia]|].
  unfold read_config. fold (read_positive inp). unfold read_positive in *.
  by rewrite Hk.
Qed.

Lemma input_without_digit_hangs_witness :
  read_config (chars "ten" ++ [newline] ++ chars "- +" ++ [newline])
  = Config_hangs
  /\ read_config [] = Config_hangs.
Proof.
  split.
  - apply (input_without_digit_hangs
             (chars "ten" ++ [newline] ++ chars "- +" ++ [newline])).
    repeat constructor.
  - apply (input_without_digit_hangs []). constructor.
Defined.







(** * Further properties of shutdown and of the console commands *)

Lemma sigint_handler_free (w : world) :
  mutex w = false ->
  sigint_handler w
  = Some (mkWorld (lanes w)
                  (empty w + Z.max 0 (NUM_PRODUCERS w))
                  (full w + Z.max 0 (NUM_CONSUMERS w))
                  false 0 0 (total_produced w) (total_consumed w)
                  (NUM_PRODUCERS w) (NUM_CONSUMERS w) (errors w)).
Proof.
  intros Hm. unfold sigint_handler, pthread_mutex_lock. cbn. rewrite Hm.
  cbn. rewrite for_upto_post_empty. cbn. by rewrite for_upto_post_full.
Qed.

(** X14.  The free slots the handler posts wake a supplier that was blocked
    because the store was full, and the supplier then inserts without
    looking at [simulation_running] or [simulation_count]: with ten urgent
    items in the store and an urgent item in its hands, it writes over the
    oldest urgent item, which is lost, and leaves an urgent count of eleven.
    The capacity bound of the gate does not survive the signal. *)
Theorem sigint_lets_blocked_supplier_overfill
    (sys : system) (i : nat) (item priority r1 r2 : Z) :
  gate_inv sys ->
  0 < NUM_PRODUCERS (globals sys) ->
  suppliers sys !! i = Some (S_wait item priority) ->
  priority <> 0 ->
  urgent_count (lanes (globals sys)) = BUFFER_SIZE ->
  exists sys1 sys2,
    deliver_sigint sys = Some sys1
    /\ run [Supplier i r1 r2; Supplier i r1 r2] sys1 = Some sys2
    /\ urgent_count (lanes (globals sys2)) = BUFFER_SIZE + 1
    /\ rd (urgent_buffer (lanes (globals sys2)))
          (urgent_out (lanes (globals sys2))) = item
    /\ ~ store_wf (lanes (globals sys2)).
Proof.
  intros Hinv Hnp Hpc Hp Hfull.
  pose proof Hinv as [Hm Hwf He Hf Htok Hstock].
  destruct (gate_inv_bounds _ Hinv) as (_ & Hn & Hs).
  assert (Hio : in_ (lanes (globals sys)) = out (lanes (globals sys))).
  { unfold stock in Hs.
    assert (Hz : normal_count (lanes (globals sys)) = 0) by lia.
    rewrite normal_count_distance in Hz by (by destruct Hwf).
    destruct Hwf. unfold BUFFER_SIZE in *.
    destruct (out (lanes (globals sys)) <=? in_ (lanes (globals sys))) eqn:E;
      lia. }
  assert (Hlen : (i < length (suppliers sys))%nat)
    by (by eapply lookup_lt_Some).
  unfold deliver_sigint. rewrite (sigint_handler_free _ Hm). cbn.
  eexists. eexists. split; [done|]. cbn. rewrite Hpc. cbn.
  unfold sem_wait_empty. cbn.
  replace (0 <? empty (globals sys) + Z.max 0 (NUM_PRODUCERS (globals sys)))
    with true by lia.
  cbn. rewrite list_lookup_insert_eq by done. cbn.
  unfold add_product.
  replace (Z.rem (in_ (lanes (globals sys)) + 1) BUFFER_SIZE
           =? out (lanes (globals sys))) with false.
  2:{ destruct Hwf. unfold BUFFER_SIZE in *. rewrite rem_wrap by lia.
      destruct (in_ (lanes (globals sys)) + 1 <? 10) eqn:E; lia. }
  replace (priority =? 0) with false by lia. cbn.
  split; [done|]. cbn. split; [unfold BUFFER_SIZE in *; lia|].
  assert (Huio : urgent_in (lanes (globals sys))
                 = urgent_out (lanes (globals sys))).
  { destruct Hwf. rewrite wf_urgent_ring0, Hfull. unfold BUFFER_SIZE in *.
    replace (urgent_out (lanes (globals sys)) + 10)
      with (urgent_out (lanes (globals sys)) + 1 * 10) by lia.
    rewrite Z_mod_plus_full. apply Z.mod_small. lia. }
  split.
  - rewrite <- Huio. apply rd_wr_same. destruct Hwf.
    unfold BUFFER_SIZE in *. lia.
  - intros []. cbn in *. unfold BUFFER_SIZE in *. lia.
Qed.

Lemma sigint_lets_blocked_supplier_overfill_witness :
  exists sys sys1 sys2,
    run (concat (replicate 10 (replicate 4 (Supplier 0 17 1)))
         ++ [Supplier 0 99 1])
        (init_system 1 1 50) = Some sys
    /\ items Urgent_lane (lanes (globals sys)) = replicate 10 17
    /\ step (Supplier 0 0 0) sys = None
    /\ deliver_sigint sys = Some sys1
    /\ run [Supplier 0 0 0; Supplier 0 0 0] sys1 = Some sys2
    /\ urgent_count (lanes (globals sys2)) = BUFFER_SIZE + 1
    /\ rd (urgent_buffer (lanes (globals sys2)))
          (urgent_out (lanes (globals sys2))) = 99.
Proof.
  eexists.
  match goal with
  | |- exists sys1 sys2, run ?evs ?init = Some ?s /\ _ =>
      assert (Hrun : run evs init = Some s) by (vm_compute; reflexivity)
  end.
  pose proof (gate_inv_run _ _ _ (gate_inv_init 1 1 50) Hrun) as Hinv.
  assert (Hp : 1 <> 0) by lia.
  destruct (sigint_lets_blocked_supplier_overfill _ 0%nat 99 1 0 0 Hinv)
    as (sys1 & sys2 & H1 & H2 & H3 & H4 & _);
    [reflexivity|reflexivity|exact Hp|reflexivity|].
  exists sys1, sys2. split; [exact Hrun|].
  split; [vm_compute; reflexivity|]. split; [vm_compute; reflexivity|].
  split; [exact H1|]. split; [exact H2|]. split; [exact H3|exact H4].
Defined.

Lemma remove_guard_excludes_underflow (s : store) :
  (0 <? normal_count s) || (0 <? urgent_count s) = true ->
  ~ (in_ s = out s /\ urgent_count s = 0).
Proof.
  intros Hg [Hio Hu]. unfold normal_count in Hg. rewrite Hio, Hu in Hg.
  replace (out s - out s + BUFFER_SIZE) with BUFFER_SIZE in Hg by lia.
  by rewrite Z.rem_same in Hg.
Qed.

(** X15.  The command "remove" of the console variant never makes
    [extract_product] underflow, whatever the store: its own test lets it
    extract only when an item is there.  It leaves the semaphores and the
    statistics alone.  On a well-formed store it answers "No items to
    remove!" exactly when both lanes are empty, and otherwise takes the
    first item of the urgent queue followed by the normal queue. *)
Theorem remove_command_never_underflows (w : Console.world) :
  Console.errors (UserInput.remove_command w).2 = Console.errors w
  /\ Console.empty (UserInput.remove_command w).2 = Console.empty w
  /\ Console.full (UserInput.remove_command w).2 = Console.full w
  /\ Console.total_produced (UserInput.remove_command w).2
     = Console.total_produced w
  /\ Console.total_consumed (UserInput.remove_command w).2
     = Console.total_consumed w
  /\ (store_wf (Console.lanes w) ->
      ((UserInput.remove_command w).1 = None
       <-> in_ (Console.lanes w) = out (Console.lanes w)
           /\ urgent_count (Console.lanes w) = 0)
      /\ ((UserInput.remove_command w).1 = None ->
          (UserInput.remove_command w).2 = w)
      /\ forall x,
           (UserInput.remove_command w).1 = Some x ->
           items Urgent_lane (Console.lanes w)
           ++ items Normal_lane (Console.lanes w)
           = x :: items Urgent_lane
                    (Console.lanes (UserInput.remove_command w).2)
                  ++ items Normal_lane
                       (Console.lanes (UserInput.remove_command w).2)).
Proof.
  unfold UserInput.remove_command.
  destruct ((0 <? normal_count (Console.lanes w))
            || (0 <? urgent_count (Console.lanes w))) eqn:Hg.
  - pose proof (remove_guard_excludes_underflow _ Hg) as Hne.
    assert (Hnone : (extract_product (Console.lanes w)).1.2 = None).
    { unfold extract_product.
      replace ((in_ (Console.lanes w) =? out (Console.lanes w))
               && (urgent_count (Console.lanes w) =? 0)) with false by lia.
      by destruct (0 <? urgent_count (Console.lanes w)). }
    destruct (extract_product (Console.lanes w)) as [[item e] s'] eqn:Eext.
    cbn in Hnone. subst e.
    cbn [fst snd Console.errors Console.empty Console.full Console.lanes
         Console.total_produced Console.total_consumed].
    split_and!; try done.
    intros Hwf. split_and!; [split; [done|tauto]|done|].
    intros x [= <-].
    assert (Hitem : (extract_product (Console.lanes w)).1.1 = item)
      by (by rewrite Eext).
    assert (Hs' : (extract_product (Console.lanes w)).2 = s')
      by (by rewrite Eext).
    destruct (decide (0 < urgent_count (Console.lanes w))) as [Hu|Hu].
    + destruct (extract_product_urgent_items _ Hwf Hu) as [Hh Hn].
      rewrite Hitem, Hs' in *. by rewrite Hh, Hn.
    + assert (Hu0 : urgent_count (Console.lanes w) = 0)
        by (destruct Hwf; lia).
      assert (Hio : in_ (Console.lanes w) <> out (Console.lanes w)) by lia.
      destruct (extract_product_normal_items _ Hwf Hu0 Hio) as [Hh Hn].
      rewrite Hitem, Hs' in *. rewrite Hh, Hn.
      cbn [items]. unfold ring_items. by rewrite Hu0.
  - cbn [fst snd]. split_and!; try done. intros Hwf.
    pose proof (normal_count_range _ Hwf) as Hn.
    split_and!; [|done|done]. split; [intros _|done].
    assert (Hz : normal_count (Console.lanes w) = 0) by lia.
    rewrite normal_count_distance in Hz by (by destruct Hwf).
    destruct Hwf. unfold BUFFER_SIZE in *.
    destruct (out (Console.lanes w) <=? in_ (Console.lanes w)) eqn:E; lia.
Qed.

Lemma remove_command_never_underflows_witness :
  let w := Console.mkWorld
             (add_product 8 1 (add_product 7 0 init_store).2).2
             8 2 0 2 0 1 1 [] in
  (UserInput.remove_command w).1 = Some 8
  /\ items Urgent_lane (Console.lanes w) ++ items Normal_lane (Console.lanes w)
     = 8 :: items Urgent_lane (Console.lanes (UserInput.remove_command w).2)
            ++ items Normal_lane
                 (Console.lanes (UserInput.remove_command w).2).
Proof.
  intros w. split; [reflexivity|].
  destruct (remove_command_never_underflows w) as (_ & _ & _ & _ & _ & H).
  apply H; [|reflexivity].
  repeat (apply add_product_wf; [|done]). apply init_store_wf.
Defined.

(** ** Every thread leaves after the signal *)

Lemma step_config (ev : event) (sys sys' : system) :
  step ev sys = Some sys' ->
  NUM_PRODUCERS (globals sys') = NUM_PRODUCERS (globals sys)
  /\ NUM_CONSUMERS (globals sys') = NUM_CONSUMERS (globals sys)
  /\ length (suppliers sys') = length (suppliers sys)
  /\ length (retailers sys') = length (retailers sys).
Proof.
  destruct ev as [i r1 r2|j]; cbn.
  - destruct (suppliers sys !! i) as [pc|]; [|done]. cbn.
    destruct (supplier_step pc r1 r2 (globals sys)) as [[pc' w']|] eqn:Hs;
      [|done].
    cbn. intros [= <-]. cbn. rewrite length_insert.
    split_and!; try done;
      (destruct pc as [|item priority|item priority| |]; cbn in Hs;
       [unfold pthread_mutex_lock in Hs;
        destruct (mutex (globals sys)); [done|]; cbn in Hs;
        destruct (simulation_count (globals sys) <=? 0);
        by injection Hs as <- <-
       |unfold sem_wait_empty in Hs;
        destruct (0 <? empty (globals sys)); [|done];
        by injection Hs as <- <-
       |unfold supplier_critical, pthread_mutex_lock in Hs;
        destruct (mutex (globals sys)); [done|]; cbn in Hs;
        destruct (add_product item priority (lanes (globals sys)))
          as [[e|] s'];
        by injection Hs as <- <-
       |by injection Hs as <- <-
       |done]).
  - destruct (retailers sys !! j) as [pc|]; [|done]. cbn.
    destruct (retailer_step pc (globals sys)) as [[pc' w']|] eqn:Hs; [|done].
    cbn. intros [= <-]. cbn. rewrite length_insert.
    split_and!; try done;
      (destruct pc; cbn in Hs;
       [unfold pthread_mutex_lock in Hs;
        destruct (mutex (globals sys)); [done|]; cbn in Hs;
        destruct (simulation_count (globals sys) <=? 0);
        by injection Hs as <- <-
       |unfold sem_wait_full in Hs;
        destruct (0 <? full (globals sys)); [|done];
        by injection Hs as <- <-
       |unfold retailer_critical, pthread_mutex_lock in Hs;
        destruct (mutex (globals sys)); [done|]; cbn in Hs;
        destruct ((in_ (lanes (globals sys)) =? out (lanes (globals sys)))
                  && (urgent_count (lanes (globals sys)) =? 0));
        [by injection Hs as <- <-|];
        destruct (extract_product (lanes (globals sys))) as [[item [e|]] s'];
        destruct (item =? -1); by injection Hs as <- <-
       |by injection Hs as <- <-
       |by injection Hs as <- <-
       |done]).
Qed.

Lemma run_config (evs : list event) (sys sys' : system) :
  run evs sys = Some sys' ->
  NUM_PRODUCERS (globals sys') = NUM_PRODUCERS (globals sys)
  /\ NUM_CONSUMERS (globals sys') = NUM_CONSUMERS (globals sys)
  /\ length (suppliers sys') = length (suppliers sys)
  /\ length (retailers sys') = length (retailers sys).
Proof.
  revert sys. induction evs as [|ev evs IH]; intros sys Hrun.
  - cbn in Hrun. by injection Hrun as <-.
  - cbn in Hrun. destruct (step ev sys) as [sys1|] eqn:Hstep; [|done].
    cbn in Hrun. destruct (step_config _ _ _ Hstep) as (H1 & H2 & H3 & H4).
    destruct (IH _ Hrun) as (G1 & G2 & G3 & G4). split_and!; congruence.
Qed.

Lemma total_le_length {A} (f : A -> Z) (c : Z) (l : list A) :
  (forall a, f a <= c) -> total f l <= c * Z.of_nat (length l).
Proof.
  intros Hf. induction l as [|a l IH].
  - change (total f []) with 0. cbn. lia.
  - rewrite total_cons. cbn [length]. specialize (Hf a). nia.
Qed.

Lemma stopped_step (ev : event) (sys sys' : system) :
  stopped sys -> step ev sys = Some sys' ->
  stopped sys' /\ pieces_left sys' = pieces_left sys - 1.
Proof.
  intros [Hm Hcount Hempty Hfull] Hstep. unfold pieces_left.
  destruct ev as [i r1 r2|j]; cbn in Hstep.
  - destruct (suppliers sys !! i) as [pc|] eqn:Hpc; [|done]. cbn in Hstep.
    destruct (supplier_step pc r1 r2 (globals sys)) as [[pc' w']|] eqn:Hs;
      [|done].
    cbn in Hstep. injection Hstep as <-.
    destruct (supplier_step_spec _ _ _ _ _ _ Hm Hs) as [Hm' Hspec].
    destruct (supplier_step_stats _ _ _ _ _ _ Hm Hs) as (_ & Hc & Hstat).
    pose proof (total_insert supplier_waiting _ _ _ pc' Hpc) as Hw.
    pose proof (total_insert supplier_left _ _ _ pc' Hpc) as Hl.
    destruct pc as [|item priority|item priority| |]; cbn in Hspec.
    + destruct Hstat as (_ & _ & [[-> _]|[_ Hlt]]); [|lia].
      destruct Hspec as (-> & _).
      split; [split|]; cbn; cbn in Hw, Hl; try done; lia.
    + destruct Hspec as (-> & _ & _ & He & Hf).
      split; [split|]; cbn; cbn in Hw, Hl; try done; lia.
    + destruct Hspec as (-> & _ & He & Hf).
      split; [split|]; cbn; cbn in Hw, Hl; try done; lia.
    + destruct Hspec as (-> & _ & He & Hf).
      split; [split|]; cbn; cbn in Hw, Hl; try done; lia.
    + done.
  - destruct (retailers sys !! j) as [pc|] eqn:Hpc; [|done]. cbn in Hstep.
    destruct (retailer_step pc (globals sys)) as [[pc' w']|] eqn:Hs; [|done].
    cbn in Hstep. injection Hstep as <-.
    destruct (retailer_step_spec _ _ _ _ Hm Hs) as [Hm' Hspec].
    destruct (retailer_step_stats _ _ _ _ Hm Hs) as (_ & _ & Hstat).
    pose proof (total_insert retailer_waiting _ _ _ pc' Hpc) as Hw.
    pose proof (total_insert retailer_left _ _ _ pc' Hpc) as Hl.
    destruct pc; cbn in Hspec.
    + destruct Hstat as (_ & [(-> & _ & Hc)|(_ & Hlt & _)]); [|lia].
      destruct Hspec as (_ & He & Hf & _).
      split; [split|]; cbn; cbn in Hw, Hl; try done; lia.
    + destruct Hstat as (_ & Hc). destruct Hspec as (-> & _ & _ & He & Hf).
      split; [split|]; cbn; cbn in Hw, Hl; try done; lia.
    + destruct Hstat as (Hc & _). destruct Hspec as (He & Hf & Hcase).
      assert (Hpc' : pc' = R_repost \/ pc' = R_release).
      { destruct Hcase as [(_ & _ & -> & _)|(_ & ? & _)]; [by left|done]. }
      split; [split|]; cbn; destruct Hpc' as [-> | ->]; cbn in Hw, Hl;
        try done; lia.
    + destruct Hstat as (_ & Hc). destruct Hspec as (-> & _ & He & Hf).
      split; [split|]; cbn; cbn in Hw, Hl; try done; lia.
    + destruct Hstat as (_ & Hc). destruct Hspec as (-> & _ & He & Hf).
      split; [split|]; cbn; cbn in Hw, Hl; try done; lia.
    + done.
Qed.

Lemma stopped_run (evs : list event) (sys sys' : system) :
  stopped sys -> run evs sys = Some sys' ->
  stopped sys' /\ pieces_left sys' = pieces_left sys - Z.of_nat (length evs).
Proof.
  revert sys. induction evs as [|ev evs IH]; intros sys Hst Hrun.
  - cbn in Hrun. injection Hrun as <-. split; [done|cbn; lia].
  - cbn in Hrun. destruct (step ev sys) as [sys1|] eqn:Hstep; [|done].
    cbn in Hrun. destruct (stopped_step _ _ _ Hst Hstep) as [Hst1 Hl1].
    destruct (IH _ Hst1 Hrun) as [Hst2 Hl2]. split; [done|].
    cbn [length]. lia.
Qed.

Lemma total_lookup_ge {A} (f : A -> Z) (l : list A) (i : nat) (x : A) :
  (forall a, 0 <= f a) -> l !! i = Some x -> f x <= total f l.
Proof.
  intros Hf. revert i. induction l as [|a l IH]; intros [|i] Hx; try done.
  - injection Hx as ->. rewrite total_cons.
    pose proof (total_nonneg f l Hf). lia.
  - rewrite total_cons. specialize (IH i Hx). specialize (Hf a). lia.
Qed.

Lemma stopped_enabled (sys : system) :
  stopped sys ->
  (forall i pc r1 r2,
     suppliers sys !! i = Some pc -> pc <> S_exit ->
     step (Supplier i r1 r2) sys <> None)
  /\ (forall j pc,
        retailers sys !! j = Some pc -> pc <> R_exit ->
        step (Retailer j) sys <> None).
Proof.
  intros [Hm Hcount Hempty Hfull]. split.
  - intros i pc r1 r2 Hpc Hne. cbn. rewrite Hpc. cbn.
    destruct (supplier_step pc r1 r2 (globals sys)) as [[pc' w']|] eqn:Hs;
      [done|].
    apply (supplier_step_enabled _ _ _ _ Hm) in Hs
      as [?|[(item & priority & ->) Hz]]; [done|].
    pose proof (total_lookup_ge supplier_waiting _ _ _
                  ltac:(intros []; cbn; lia) Hpc) as Hge.
    cbn in Hge. lia.
  - intros j pc Hpc Hne. cbn. rewrite Hpc. cbn.
    destruct (retailer_step pc (globals sys)) as [[pc' w']|] eqn:Hs; [done|].
    apply (retailer_step_enabled _ _ Hm) in Hs as [?|[-> Hz]]; [done|].
    pose proof (total_lookup_ge retailer_waiting _ _ _
                  ltac:(intros []; cbn; lia) Hpc) as Hge.
    cbn in Hge. lia.
Qed.

Lemma total_zero_Forall {A} (f : A -> Z) (l : list A) :
  (forall a, 0 <= f a) -> total f l = 0 -> Forall (fun a => f a = 0) l.
Proof.
  intros Hf. induction l as [|a l IH]; [constructor|].
  rewrite total_cons. intros Hz.
  pose proof (total_nonneg f l Hf). specialize (Hf a).
  constructor; [lia|apply IH; lia].
Qed.

(** X16.  When the signal arrives between two pieces of the threads of a
    run, the handler finds the mutex free and goes through, and from then
    on no thread can be blocked: each semaphore holds a token for
    every thread waiting on it, and the work counter stays at zero, so each
    thread leaves its loop after at most four more of its pieces.  Whatever
    the schedule, at most four steps per thread are possible, every thread
    still in its loop can take its next step, and when those steps are used
    up every thread has left. *)
Theorem shutdown_releases_every_thread
    (np nc count : Z) (evs : list event) (sys : system) :
  run evs (init_system np nc count) = Some sys ->
  exists sys1,
    deliver_sigint sys = Some sys1
    /\ stopped sys1
    /\ forall evs' sys2,
         run evs' sys1 = Some sys2 ->
         Z.of_nat (length evs')
         <= 4 * (Z.of_nat (length (suppliers sys))
                 + Z.of_nat (length (retailers sys)))
         /\ (forall i pc r1 r2,
               suppliers sys2 !! i = Some pc -> pc <> S_exit ->
               step (Supplier i r1 r2) sys2 <> None)
         /\ (forall j pc,
               retailers sys2 !! j = Some pc -> pc <> R_exit ->
               step (Retailer j) sys2 <> None)
         /\ (Z.of_nat (length evs') = pieces_left sys1 ->
             Forall (fun pc => pc = S_exit) (suppliers sys2)
             /\ Forall (fun pc => pc = R_exit) (retailers sys2)).
Proof.
  intros Hrun.
  pose proof (gate_inv_run _ _ _ (gate_inv_init np nc count) Hrun)
    as [Hm Hwf He Hf Htok Hstock].
  destruct (run_config _ _ _ Hrun) as (Hnp & Hnc & Hls & Hlr).
  cbn in Hnp, Hnc, Hls, Hlr.
  rewrite length_replicate in Hls. rewrite length_replicate in Hlr.
  unfold deliver_sigint. rewrite (sigint_handler_free _ Hm). cbn.
  eexists. split; [done|].
  assert (Hst : stopped
                  (mkSystem
                     (mkWorld (lanes (globals sys))
                        (empty (globals sys)
                         + Z.max 0 (NUM_PRODUCERS (globals sys)))
                        (full (globals sys)
                         + Z.max 0 (NUM_CONSUMERS (globals sys)))
                        false 0 0 (total_produced (globals sys))
                        (total_consumed (globals sys))
                        (NUM_PRODUCERS (globals sys))
                        (NUM_CONSUMERS (globals sys))
                        (errors (globals sys)))
                     (suppliers sys) (retailers sys))).
  { split; cbn; try done.
    - pose proof (total_le_length supplier_waiting 1 (suppliers sys)
                    ltac:(intros []; cbn; lia)). lia.
    - pose proof (total_le_length retailer_waiting 1 (retailers sys)
                    ltac:(intros []; cbn; lia)). lia. }
  split; [done|]. intros evs' sys2 Hrun'.
  destruct (stopped_run _ _ _ Hst Hrun') as [Hst2 Hleft].
  destruct (stopped_enabled _ Hst2) as [Hes Her].
  assert (Hs0 : 0 <= total supplier_left (suppliers sys2))
    by (apply total_nonneg; intros []; cbn; lia).
  assert (Hr0 : 0 <= total retailer_left (retailers sys2))
    by (apply total_nonneg; intros []; cbn; lia).
  pose proof (total_le_length supplier_left 4 (suppliers sys)
                ltac:(intros []; cbn; lia)) as Hs4.
  pose proof (total_le_length retailer_left 4 (retailers sys)
                ltac:(intros []; cbn; lia)) as Hr4.
  unfold pieces_left in *. cbn [suppliers retailers] in Hleft.
  split_and!; [lia|done|done|].
  cbn [suppliers retailers]. intros Hall.
  assert (Hzs : total supplier_left (suppliers sys2) = 0) by lia.
  assert (Hzr : total retailer_left (retailers sys2) = 0) by lia.
  apply total_zero_Forall in Hzs; [|intros []; cbn; lia].
  apply total_zero_Forall in Hzr; [|intros []; cbn; lia].
  split.
  - eapply Forall_impl; [exact Hzs|]. by intros [].
  - eapply Forall_impl; [exact Hzr|]. by intros [].
Qed.

Lemma shutdown_releases_every_thread_witness :
  exists sys sys1,
    run [Retailer 0; Supplier 0 17 1; Supplier 0 17 1]
        (init_system 1 1 5) = Some sys
    /\ retailers sys = [R_wait]
    /\ deliver_sigint sys = Some sys1
    /\ stopped sys1.
Proof.
  eexists.
  match goal with
  | |- exists sys1, run ?evs ?init = Some ?s /\ _ =>
      assert (Hrun : run evs init = Some s) by (vm_compute; reflexivity)
  end.
  destruct (shutdown_releases_every_thread _ _ _ _ _ Hrun)
    as (sys1 & H1 & H2 & _).
  exists sys1. split; [exact Hrun|]. split; [reflexivity|].
  split; [exact H1|exact H2].
Defined.

(** ** Semaphore values *)

Lemma total_Forall_zero {A} (f : A -> Z) (l : list A) :
  Forall (fun a => f a = 0) l -> total f l = 0.
Proof.
  induction 1 as [|a l Ha Hl IH]; [done|]. rewrite total_cons. lia.
Qed.

(** X17.  In every state of a run the two semaphores are between zero and
    the capacity, and at most as many threads as the capacity are between a
    [sem_wait] and the matching [sem_post]; when no thread is, the free
    slots and the filled slots add up to the capacity. *)
Theorem semaphores_stay_in_range
    (np nc count : Z) (evs : list event) (sys : system) :
  run evs (init_system np nc count) = Some sys ->
  0 <= empty (globals sys) <= BUFFER_SIZE
  /\ 0 <= full (globals sys) <= BUFFER_SIZE
  /\ 0 <= total supplier_holds (suppliers sys)
          + total retailer_holds (retailers sys) <= BUFFER_SIZE
  /\ (Forall (fun pc => supplier_holds pc = 0) (suppliers sys) ->
      Forall (fun pc => retailer_holds pc = 0) (retailers sys) ->
      empty (globals sys) + full (globals sys) = BUFFER_SIZE).
Proof.
  intros Hrun.
  pose proof (gate_inv_run _ _ _ (gate_inv_init np nc count) Hrun)
    as [Hm Hwf He Hf Htok Hstock].
  assert (Hs : 0 <= total supplier_holds (suppliers sys))
    by (apply total_nonneg; intros []; cbn; lia).
  assert (Hr : 0 <= total retailer_holds (retailers sys))
    by (apply total_nonneg; intros []; cbn; lia).
  split_and!; try lia.
  intros Hqs Hqr. apply total_Forall_zero in Hqs, Hqr. lia.
Qed.

Lemma semaphores_stay_in_range_witness :
  exists sys,
    run (replicate 4 (Supplier 0 17 1) ++ replicate 5 (Retailer 0)
         ++ replicate 4 (Supplier 0 23 0))
        (init_system 1 1 5) = Some sys
    /\ empty (globals sys) + full (globals sys) = BUFFER_SIZE.
Proof.
  eexists.
  match goal with
  | |- run ?evs ?init = Some ?s /\ _ =>
      assert (Hrun : run evs init = Some s) by (vm_compute; reflexivity)
  end.
  split; [exact Hrun|].
  destruct (semaphores_stay_in_range _ _ _ _ _ Hrun) as (_ & _ & _ & H).
  apply H; repeat constructor.
Defined.

(** ** The command "add" of the console variant *)

(** X18.  The command "add" of the console variant calls [add_product]
    with no semaphore around it: it never changes [empty], [full] or the
    statistics.  On a well-formed store whose normal ring is not full the
    item joins the end of the queue of its lane when that lane has room;
    an urgent item added to a full urgent lane is accepted all the same
    and takes the urgent count past the capacity. *)
Theorem add_command_bypasses_gate
    (item priority : Z) (w : Console.world) :
  Console.empty (UserInput.add_command item priority w) = Console.empty w
  /\ Console.full (UserInput.add_command item priority w) = Console.full w
  /\ Console.total_produced (UserInput.add_command item priority w)
     = Console.total_produced w
  /\ Console.total_consumed (UserInput.add_command item priority w)
     = Console.total_consumed w
  /\ (store_wf (Console.lanes w) -> has_room Normal_lane (Console.lanes w) ->
      has_room (lane_of priority) (Console.lanes w) ->
      forall l,
        items l (Console.lanes (UserInput.add_command item priority w))
        = items l (Console.lanes w)
          ++ (if same_lane (lane_of priority) l then [item] else []))
  /\ (has_room Normal_lane (Console.lanes w) -> priority <> 0 ->
      urgent_count (Console.lanes w) = BUFFER_SIZE ->
      urgent_count (Console.lanes (UserInput.add_command item priority w))
      = BUFFER_SIZE + 1).
Proof.
  unfold UserInput.add_command.
  destruct (add_product item priority (Console.lanes w)) as [e s'] eqn:Eadd.
  cbn [Console.empty Console.full Console.total_produced
       Console.total_consumed Console.lanes].
  assert (He : (add_product item priority (Console.lanes w)).1 = e)
    by (by rewrite Eadd).
  assert (Hs : (add_product item priority (Console.lanes w)).2 = s')
    by (by rewrite Eadd).
  split_and!; try done.
  - intros Hwf Hn Hroom l.
    assert (Hnone : e = None).
    { destruct e as [e|]; [|done]. exfalso.
      pose proof (add_product_overflow_iff item priority (Console.lanes w))
        as Hiff.
      rewrite He in Hiff. cbn in Hn.
      assert (e = Buffer_overflow) as ->.
      { revert He. unfold add_product.
        destruct (Z.rem (in_ (Console.lanes w) + 1) BUFFER_SIZE
                  =? out (Console.lanes w)); [by intros [= <-]|].
        by destruct (negb (priority =? 0)). }
      by apply Hn, Hiff. }
    rewrite Hnone in He. rewrite <- Hs. unfold lane_of in *.
    destruct (priority =? 0) eqn:Ep.
    + apply Z.eqb_eq in Ep.
      destruct (add_product_normal_items item priority _ Hwf Ep He)
        as [H1 H2].
      destruct l; cbn [same_lane]; [done|by rewrite app_nil_r].
    + apply Z.eqb_neq in Ep. cbn in Hroom.
      destruct (add_product_urgent_items item priority _ Hwf Ep Hroom He)
        as [H1 H2].
      destruct l; cbn [same_lane]; [by rewrite app_nil_r|done].
  - intros Hn Hp Hfull. rewrite <- Hs. cbn in Hn. unfold add_product.
    replace (Z.rem (in_ (Console.lanes w) + 1) BUFFER_SIZE
             =? out (Console.lanes w)) with false by lia.
    replace (priority =? 0) with false by lia. cbn. lia.
Qed.

Lemma add_command_bypasses_gate_witness :
  let w := Console.mkWorld init_store 0 10 0 0 0 1 1 [] in
  items Urgent_lane (Console.lanes (UserInput.add_command 5 1 w)) = [5]
  /\ Console.empty (UserInput.add_command 5 1 w) = 0.
Proof.
  intros w.
  destruct (add_command_bypasses_gate 5 1 w) as (H1 & _ & _ & _ & H5 & _).
  split; [|exact H1].
  apply (H5 init_store_wf); vm_compute; congruence.
Defined.

(** * First in, first out without room in the urgent lane *)

(** C4.  [add_product] does not test the urgent lane before it writes to
    it.  On a well-formed store with ten urgent items and a normal ring
    that is not full, one more urgent insert is accepted, lands on the cell
    of the oldest urgent item, and is the item the next extraction returns:
    the newest item leaves first and the oldest is lost.  Eleven urgent
    inserts of [1] to [11] into the initial store are all accepted, and
    eleven extractions return [11; 2; ...; 10; 11].  In new.c the same
    happens when the signal releases a supplier blocked on a full store:
    the retailer is then about to be served [11] although [1] to [10] were
    inserted before it. *)
Theorem fifo_broken_by_urgent_overfill :
  (forall s item priority x q,
     store_wf s -> urgent_count s = BUFFER_SIZE -> has_room Normal_lane s ->
     priority <> 0 -> items Urgent_lane s = x :: q ->
     rd (urgent_buffer s) (urgent_out s) = x
     /\ (add_product item priority s).1 = None
     /\ rd (urgent_buffer (add_product item priority s).2)
           (urgent_out (add_product item priority s).2) = item
     /\ (extract_product (add_product item priority s).2).1 = (item, None))
  /\ (let s10 := foldl (fun s k => (add_product k 1 s).2) init_store
                       [1; 2; 3; 4; 5; 6; 7; 8; 9; 10] in
      items Urgent_lane s10 = [1; 2; 3; 4; 5; 6; 7; 8; 9; 10]
      /\ add_product 11 1 s10
         = (None, mkStore (replicate 10 0) 0 0
                          [11; 2; 3; 4; 5; 6; 7; 8; 9; 10] 1 0 11)
      /\ (drain 11 (add_product 11 1 s10).2).1
         = [11; 2; 3; 4; 5; 6; 7; 8; 9; 10; 11])
  /\ (let evs :=
        [Retailer 0]
        ++ concat (map (fun k => replicate 4 (Supplier 0 k 1))
                       [1; 2; 3; 4; 5; 6; 7; 8; 9; 10])
        ++ [Supplier 0 11 1] in
      exists sys sys1 sys2,
        run evs (init_system 1 1 50) = Some sys
        /\ inserted Urgent_lane (history evs (init_system 1 1 50))
           = [1; 2; 3; 4; 5; 6; 7; 8; 9; 10]
        /\ served Urgent_lane (history evs (init_system 1 1 50)) = []
        /\ suppliers sys = [S_wait 11 1] /\ retailers sys = [R_wait]
        /\ deliver_sigint sys = Some sys1
        /\ run [Supplier 0 0 0; Supplier 0 0 0; Retailer 0] sys1 = Some sys2
        /\ retailers sys2 = [R_crit]
        /\ extraction (lanes (globals sys2)) = [Served Urgent_lane 11]).
Proof.
  split_and!.
  - intros s item priority x q Hwf Hfull Hroom Hp Hitems.
    cbn in Hroom. pose proof Hwf as [].
    assert (Huio : urgent_in s = urgent_out s).
    { rewrite wf_urgent_ring0, Hfull. unfold BUFFER_SIZE in *.
      replace (urgent_out s + 10) with (urgent_out s + 1 * 10) by lia.
      rewrite Z_mod_plus_full. apply Z.mod_small. lia. }
    assert (Hhead : rd (urgent_buffer s) (urgent_out s) = x).
    { cbn [items] in Hitems.
      rewrite (ring_items_pop (urgent_buffer s) (urgent_out s)
                 (urgent_count s)) in Hitems
        by (unfold BUFFER_SIZE in *; lia).
      by injection Hitems. }
    split; [done|]. unfold add_product.
    replace (Z.rem (in_ s + 1) BUFFER_SIZE =? out s) with false by lia.
    replace (priority =? 0) with false by lia. cbn [negb fst snd].
    split; [done|]. cbn [urgent_buffer urgent_out].
    assert (Hrd : rd (wr (urgent_buffer s) (urgent_in s) item) (urgent_out s)
                  = item).
    { rewrite <- Huio. apply rd_wr_same. unfold BUFFER_SIZE in *. lia. }
    split; [done|]. unfold extract_product. cbn.
    replace ((in_ s =? out s) && (urgent_count s + 1 =? 0)) with false by lia.
    replace (0 <? urgent_count s + 1) with true by lia. cbn.
    by rewrite Hrd.
  - by vm_compute.
  - intros evs. eexists. eexists. eexists.
    split; [vm_compute; reflexivity|].
    split; [vm_compute; reflexivity|].
    split; [vm_compute; reflexivity|].
    split; [reflexivity|]. split; [reflexivity|].
    split; [vm_compute; reflexivity|].
    split; [vm_compute; reflexivity|].
    split; [reflexivity|]. vm_compute. reflexivity.
Qed.

Lemma fifo_broken_by_urgent_overfill_witness :
  let s10 := foldl (fun s k => (add_product k 1 s).2) init_store
                   [1; 2; 3; 4; 5; 6; 7; 8; 9; 10] in
  rd (urgent_buffer s10) (urgent_out s10) = 1
  /\ (extract_product (add_product 11 1 s10).2).1 = (11, None).
Proof.
  intros s10.
  assert (Hwf : store_wf s10).
  { subst s10. cbn [foldl].
    repeat (apply add_product_wf; [|intros _; vm_compute; reflexivity]).
    apply init_store_wf. }
  assert (Hroom : has_room Normal_lane s10) by (vm_compute; congruence).
  assert (Hp : 1 <> 0) by lia.
  destruct (proj1 fifo_broken_by_urgent_overfill s10 11 1 1
              [2; 3; 4; 5; 6; 7; 8; 9; 10] Hwf eq_refl Hroom Hp eq_refl)
    as (H1 & _ & _ & H4).
  split; [exact H1|exact H4].
Defined.

(** * The startup input loops, answer by answer *)













